(** * Trust resolution and credential verification of the did:web toolkit

    A shallow embedding of the TypeScript sources of the bun toolkit

    - [createGenericResolver], the controller and schema resolver
      (src/resolver/genericResolver.ts),
    - [credentialVerifierFromResolver], the verifier
      (src/unnamed/part_001, lines 234-280),
    - [issueCredential], the issuance (src/unnamed/part_001, lines 299-340),
    - [createPresentation], for its validity-window checks
      (src/cli/commands/credential-issue.ts, lines 252-301),
    - [generateDid], for the DID and the DID document it builds
      (src/cli/commands/did-generate.ts),
    - [signCredential] with the configuration it loads and checks
      (src/cli/commands/credential-sign.ts, src/unnamed/part_000,
      src/utils/path.ts),

    followed by the properties the specification states about them.

    Conventions of the embedding.
    - A JavaScript string is a [string]; [startsWith], [split], [join] and
      [replace] are the String.prototype functions of the same names, for
      the argument shapes the sources use.
    - A plain object used as a dictionary ([Record<string, T>]) is a
      [gmap string T] of its own properties. What such an object inherits
      from [Object.prototype] is not in the map: a lookup in the map is the
      index expression of the sources for the identifiers that are
      [ownKey], as every identifier that starts with [did:web:] is, on a
      store that is [plainObject].
    - An [async] function is a state-passing function: it takes the
      resolver state and what the outside world answers (the network, the
      clock), and returns its result, the new state and the list of the
      requests it issued.
    - [throw new Error(msg)] is a result [inl (Err kind msg)], where [kind]
      is the name the specification gives to that failure.
    - JSON numbers are integers ([Z]): the numbers the sources compute
      with are epoch seconds. Their string form, [toString], is the
      decimal one, which is the form of JavaScript for the integers a
      JSON parser reads without rounding (below 2^53 in size). *)

From Stdlib Require Import ZArith String Ascii List Bool Lia.
From Stdlib Require Import DecimalString.
From stdpp Require Import base gmap strings list.

Local Open Scope string_scope.
Local Open Scope Z_scope.

Set Warnings "-register-all".

(** ** JavaScript strings *)

Module JsString.

(** [s.startsWith(p)] *)
Definition startsWith (s p : string) : bool := String.prefix p s.

(** The suffix of [s] after its first [n] characters. *)
Fixpoint drop (n : nat) (s : string) : string :=
  match n, s with
  | O, _ => s
  | S _, EmptyString => EmptyString
  | S n', String _ s' => drop n' s'
  end.

(** [s.replace(pat, rep)] for a string pattern: the first occurrence of
    [pat] is replaced, a string without occurrence is returned as it is. *)
Fixpoint replace (pat rep s : string) : string :=
  if String.prefix pat s then rep ++ drop (String.length pat) s
  else match s with
       | EmptyString => EmptyString
       | String c s' => String c (replace pat rep s')
       end.

(** [s.split(sep)] for a separator of one character. The result always
    has a first element. *)
Fixpoint split (sep : ascii) (s : string) : list string :=
  match s with
  | EmptyString => [EmptyString]
  | String c s' =>
      if Ascii.eqb c sep then EmptyString :: split sep s'
      else match split sep s' with
           | h :: t => String c h :: t
           | [] => [String c EmptyString]
           end
  end.

(** [parts.join(sep)] *)
Fixpoint join (sep : string) (parts : list string) : string :=
  match parts with
  | [] => EmptyString
  | [p] => p
  | p :: rest => p ++ sep ++ join sep rest
  end.

(** The character [c] occurs in [s]. *)
Fixpoint contains (c : ascii) (s : string) : bool :=
  match s with
  | EmptyString => false
  | String d s' => Ascii.eqb d c || contains c s'
  end.

(** A string is truthy when it is not empty. *)
Definition truthy (s : string) : bool :=
  match s with EmptyString => false | _ => true end.

End JsString.

Import JsString.

(** ** Errors

    The sources throw plain [Error] objects that differ by their message;
    the kinds are the names of the specification's taxonomy. *)

Inductive ErrorKind :=
| MalformedInputError
| MissingIssuerError
| IssuerKeyMismatchError
| ControllerNotFoundError
| KeyNotFoundError
| KeyMismatchError
| SignatureInvalidError
| SchemaNotFoundError
| SchemaCompileError
| SchemaValidationError
| AssertionKeyNotFoundError
| KeyFileError.

Record Error := Err { kind : ErrorKind; message : string }.

(** ** Controller documents *)

Inductive Algorithm := ES256 | ES384.

Record PublicKey := {
  pk_kid : string;
  pk_alg : Algorithm;
  pk_x : string;
  pk_y : string
}.

Record VerificationMethod := {
  vm_id : string;
  vm_type : string;
  vm_controller : string;
  publicKeyJwk : PublicKey
}.

(** The fields the resolver reads are optional: a fetched document is
    used as it arrives ([as any]). *)
Record Controller := {
  ctrl_id : string;
  verificationMethod : option (list VerificationMethod);
  assertionMethod : option (list string);
  authentication : option (list string)
}.

(** What a dictionary slot or a response body can hold: a document, or a
    falsy JSON value ([null], [false], [0], the empty string). *)
Inductive ControllerValue :=
| FalsyValue
| ControllerDoc (c : Controller).

(** ** The network *)

(** The outcome of [fetch(url)] followed by [response.json()]:
    [fetch] rejects ([NetworkFailure]), or there is a response with its
    [ok] flag and a body, [None] when the body is not JSON. *)
Inductive FetchOutcome :=
| NetworkFailure
| Response (ok : bool) (body : option ControllerValue).

Definition Network := string -> FetchOutcome.

(** ** JSON Schemas: ajv's [Schema] is [SchemaObject | boolean]. *)

Inductive Schema :=
| SchemaBool (b : bool)
| SchemaObject (source : string).

(** [!schema] is false for every schema object and for [true]. *)
Definition schema_truthy (s : Schema) : bool :=
  match s with
  | SchemaBool b => b
  | SchemaObject _ => true
  end.

(** The role-scoped key lists [resolveController] hands to
    [createPublicKeyResolver]: the fields [assertion] and [authentication]
    of its result (the second name is taken by the document's field). *)
Record ControllerKeys := {
  assertion : list (string * PublicKey);
  authentication_keys : list (string * PublicKey)
}.

(** [arr?.includes(x)] on an optional array of strings. *)
Definition includes (arr : option (list string)) (x : string) : bool :=
  match arr with
  | Some l => existsb (String.eqb x) l
  | None => false
  end.

(** Lines 100-113 of genericResolver.ts: the verification methods of a
    document, split by role. *)
Definition partitionKeys (controller : Controller) : ControllerKeys :=
  let vms := match verificationMethod controller with
             | Some l => l
             | None => []
             end in
  {| assertion :=
       flat_map (fun vm => if includes (assertionMethod controller) (vm_id vm)
                           then [(vm_id vm, publicKeyJwk vm)] else []) vms;
     authentication_keys :=
       flat_map (fun vm => if includes (authentication controller) (vm_id vm)
                           then [(vm_id vm, publicKeyJwk vm)] else []) vms |}.

(** Lines 70-80 of genericResolver.ts: the URL a did:web DID is fetched
    from. *)
Definition didUrl (did : string) : string :=
  let didParts := split ":" (replace "did:web:" "" did) in
  let domain := hd EmptyString didParts in
  let pathParts := tl didParts in
  if (0 <? length pathParts)%nat
  then "https://" ++ domain ++ "/" ++ join "/" pathParts ++ "/did.json"
  else "https://" ++ domain ++ "/.well-known/did.json".

Section Resolver.

(** ajv is an external library: an instance with its internal state, the
    compiled validation functions, and [compile], which may throw and
    may change the instance. *)
Variable Ajv : Type.
Variable ValidateFunction : Type.
Variable ajv_new : Ajv.
Variable ajv_compile : Ajv -> Schema -> option ValidateFunction * Ajv.

(** The closure state of [createGenericResolver]. [compileCalls] counts
    the calls of [ajv.compile]; the sources do not have it, it is what a
    test would count. *)
Record Resolver := {
  controllerLookup : gmap string ControllerValue;
  schemaLookup : gmap string Schema;
  compiledSchemaCache : gmap string ValidateFunction;
  ajv : Ajv;
  compileCalls : nat
}.

Definition set_controllerLookup (f : gmap string ControllerValue -> gmap string ControllerValue)
    (st : Resolver) : Resolver :=
  {| controllerLookup := f (controllerLookup st);
     schemaLookup := schemaLookup st;
     compiledSchemaCache := compiledSchemaCache st;
     ajv := ajv st;
     compileCalls := compileCalls st |}.

(** [createGenericResolver(controllers, schemas)] *)
Definition createGenericResolver (controllers : list (string * Controller))
    (schemas : list (string * Schema)) : Resolver :=
  {| controllerLookup :=
       fold_left (fun m p => <[fst p := ControllerDoc (snd p)]> m) controllers ∅;
     schemaLookup := fold_left (fun m p => <[fst p := snd p]> m) schemas ∅;
     compiledSchemaCache := ∅;
     ajv := ajv_new;
     compileCalls := 0%nat |}.

(** The document a dictionary slot holds, if it is truthy. *)
Definition truthyController (v : option ControllerValue) : option Controller :=
  match v with
  | Some (ControllerDoc c) => Some c
  | _ => None
  end.

(** [resolveController(id)]: the result, the new state and the URLs
    fetched, in order. *)
Definition resolveController (net : Network) (id : string) (st : Resolver)
    : (Error + ControllerKeys) * Resolver * list string :=
  let controller := controllerLookup st !! id in
  let '(controller, st, fetched) :=
    match truthyController controller with
    | None =>
        if startsWith id "did:web:" then
          let did := hd EmptyString (split "#" id) in
          if JsString.truthy did then
            let url := didUrl did in
            match net url with
            | Response true (Some fetchedController) =>
                (Some fetchedController,
                 set_controllerLookup (fun m => <[did := fetchedController]> m) st,
                 [url])
            | _ => (controller, st, [url])
            end
          else (controller, st, [])
        else (controller, st, [])
    | Some _ => (controller, st, [])
    end in
  match truthyController controller with
  | None => (inl (Err ControllerNotFoundError ("Controller not found for id: " ++ id)),
             st, fetched)
  | Some c => (inr (partitionKeys c), st, fetched)
  end.

(** [addController(id, controller)] *)
Definition addController (id : string) (controller : Controller) (st : Resolver)
    : Resolver :=
  set_controllerLookup (fun m => <[id := ControllerDoc controller]> m) st.

(** [resolveSchema(id)] *)
Definition resolveSchema (id : string) (st : Resolver)
    : (Error + ValidateFunction) * Resolver :=
  match compiledSchemaCache st !! id with
  | Some cached => (inr cached, st)
  | None =>
      match schemaLookup st !! id with
      | Some schema =>
          if schema_truthy schema then
            let '(compiled, ajv') := ajv_compile (ajv st) schema in
            match compiled with
            | Some validate =>
                (inr validate,
                 {| controllerLookup := controllerLookup st;
                    schemaLookup := schemaLookup st;
                    compiledSchemaCache := <[id := validate]> (compiledSchemaCache st);
                    ajv := ajv';
                    compileCalls := S (compileCalls st) |})
            | None =>
                (inl (Err SchemaCompileError "schema is invalid"),
                 {| controllerLookup := controllerLookup st;
                    schemaLookup := schemaLookup st;
                    compiledSchemaCache := compiledSchemaCache st;
                    ajv := ajv';
                    compileCalls := S (compileCalls st) |})
            end
          else (inl (Err SchemaNotFoundError ("Schema not found for id: " ++ id)), st)
      | None => (inl (Err SchemaNotFoundError ("Schema not found for id: " ++ id)), st)
      end
  end.

(** [addSchema(id, schema)] *)
Definition addSchema (id : string) (schema : Schema) (st : Resolver) : Resolver :=
  {| controllerLookup := controllerLookup st;
     schemaLookup := <[id := schema]> (schemaLookup st);
     compiledSchemaCache := delete id (compiledSchemaCache st);
     ajv := ajv st;
     compileCalls := compileCalls st |}.

(** The states a resolver goes through: it is created, then its four
    operations are called, in any order and with any network. *)
Inductive reachable : Resolver -> Prop :=
| reach_create controllers schemas :
    reachable (createGenericResolver controllers schemas)
| reach_addController id controller st :
    reachable st -> reachable (addController id controller st)
| reach_addSchema id schema st :
    reachable st -> reachable (addSchema id schema st)
| reach_resolveController net id st :
    reachable st -> reachable (snd (fst (resolveController net id st)))
| reach_resolveSchema id st :
    reachable st -> reachable (snd (resolveSchema id st)).

End Resolver.


(** The resolver's parameters are inferred from the state or passed by
    name where there is none. *)
Arguments controllerLookup {Ajv ValidateFunction} _.
Arguments schemaLookup {Ajv ValidateFunction} _.
Arguments compiledSchemaCache {Ajv ValidateFunction} _.
Arguments ajv {Ajv ValidateFunction} _.
Arguments compileCalls {Ajv ValidateFunction} _.
Arguments set_controllerLookup {Ajv ValidateFunction} _ _.
Arguments createGenericResolver {Ajv} ValidateFunction _ _ _.
Arguments truthyController _ : clear implicits.
Arguments resolveController {Ajv ValidateFunction} _ _ _.
Arguments addController {Ajv ValidateFunction} _ _ _.
Arguments resolveSchema {Ajv ValidateFunction} _ _ _.
Arguments addSchema {Ajv ValidateFunction} _ _ _.
Arguments reachable {Ajv ValidateFunction} _ _ _.

(** ** JSON values and their JavaScript coercions *)

Inductive JSON :=
| JNull
| JBool (b : bool)
| JNum (n : Z)
| JStr (s : string)
| JArr (items : list JSON)
| JObj (members : list (string * JSON)).

(** A JSON object is the list of its members. *)
Definition JsonObject := list (string * JSON).

(** [obj.key]: [None] is [undefined]. *)
Fixpoint member (key : string) (obj : JsonObject) : option JSON :=
  match obj with
  | [] => None
  | (k, v) :: rest => if String.eqb k key then Some v else member key rest
  end.

(** [v.key] for a value that is not [null]: only objects have members. *)
Definition property (key : string) (v : JSON) : option JSON :=
  match v with
  | JObj obj => member key obj
  | _ => None
  end.

(** [!!v] *)
Definition js_truthy (v : option JSON) : bool :=
  match v with
  | None => false
  | Some JNull => false
  | Some (JBool b) => b
  | Some (JNum n) => negb (n =? 0)
  | Some (JStr s) => JsString.truthy s
  | Some (JArr _) => true
  | Some (JObj _) => true
  end.

(** [String(v)], the coercion [startsWith] and template strings apply,
    for the values on which it is the decimal form or a fixed text:
    integers below 2^53 in size, and arrays and objects without a member
    named [toString]. *)
Fixpoint toString (v : JSON) : string :=
  match v with
  | JNull => "null"
  | JBool true => "true"
  | JBool false => "false"
  | JNum n => NilEmpty.string_of_int (Z.to_int n)
  | JStr s => s
  | JArr items =>
      join "," (map (fun x => match x with
                              | JNull => EmptyString
                              | _ => toString x
                              end) items)
  | JObj _ => "[object Object]"
  end.

(** ** Signed objects *)

Record JwsHeader := {
  alg : Algorithm;
  kid : string
}.

(** What the verifier did, in order. *)
Inductive Event :=
| ResolveControllerEvent (id : string)
| FetchEvent (url : string)
| ResolveKeyEvent (id : string)
| VerifySignatureEvent (keyId : string)
| ValidateSchemasEvent.

(** Lines 243-255 of src/unnamed/part_001, in [verify]: the issuer of a
    credential, as a DID string. *)
Definition issuerDidOf (credential : JsonObject) : Error + string :=
  let issuer := member "issuer" credential in
  if negb (js_truthy issuer) then
    inl (Err MissingIssuerError "Credential must have an issuer")
  else
    let issuerDid := match issuer with
                     | Some (JStr s) => Some (JStr s)
                     | Some v => property "id" v
                     | None => None
                     end in
    match issuerDid with
    | Some v =>
        if js_truthy issuerDid then inr (toString v)
        else inl (Err MissingIssuerError "Credential issuer must have an id")
    | None => inl (Err MissingIssuerError "Credential issuer must have an id")
    end.

(** Modelled from the spec: [createPublicKeyResolver] (src/resolver/
    publicKeyResolver.ts) is not among the sources. Section 4.6: the set
    built from the [(keyId, publicKey)] pairs of one role resolves a key
    id to the verifier of its key, and fails with [KeyNotFoundError] for
    an id that is not in the set. *)
Fixpoint resolveKey (keys : list (string * PublicKey)) (keyId : string)
    : Error + PublicKey :=
  match keys with
  | [] => inl (Err KeyNotFoundError ("Public key not found for id: " ++ keyId))
  | (id, key) :: rest => if String.eqb id keyId then inr key else resolveKey rest keyId
  end.

Section Verifier.

Variable Ajv : Type.
Variable ValidateFunction : Type.

(** [jws.parseJWS] (src/encoding/jws.ts, not among the sources): the
    header and the payload object of a compact signed object, or the
    message of the error it throws. *)
Variable parseJWS : string -> string + (JwsHeader * JsonObject).

(** Whether the signature of a signed object checks against a public
    key. *)
Variable signatureValid : PublicKey -> string -> bool.

(** [validateCredentialSchemas] (src/verification/utils.ts, not among the
    sources): it resolves the schemas of the credential through the
    resolver and throws when one of them rejects the credential. *)
Variable validateCredentialSchemas :
  JsonObject -> Resolver Ajv ValidateFunction ->
  option Error * Resolver Ajv ValidateFunction.

(** Modelled from the spec: the verifier a key set resolves to
    (section 4.6). It fails with [KeyMismatchError] when the header names
    another key than the one it was resolved for, with
    [SignatureInvalidError] when the signature does not check, and
    returns the payload otherwise. *)
Definition verifierVerify (keyId : string) (key : PublicKey) (jwsString : string)
    : Error + JsonObject :=
  match parseJWS jwsString with
  | inl msg => inl (Err MalformedInputError msg)
  | inr (header, payload) =>
      if negb (String.eqb (kid header) keyId) then
        inl (Err KeyMismatchError "Key id does not match the verifier")
      else if signatureValid key jwsString then inr payload
      else inl (Err SignatureInvalidError "Invalid signature")
  end.

(** [credentialVerifierFromResolver(resolver).verify(jwsString, options)] *)
Definition verify (net : Network) (jwsString : string) (validateSchema : bool)
    (st : Resolver Ajv ValidateFunction)
    : (Error + JsonObject) * Resolver Ajv ValidateFunction * list Event :=
  match parseJWS jwsString with
  | inl msg => (inl (Err MalformedInputError msg), st, [])
  | inr (header, credential) =>
      match issuerDidOf credential with
      | inl e => (inl e, st, [])
      | inr issuerDid =>
          let assertionKeyId := kid header in
          if negb (startsWith assertionKeyId issuerDid) then
            (inl (Err IssuerKeyMismatchError
                    ("Credential issuer " ++ issuerDid ++
                     " does not match assertion key " ++ assertionKeyId)),
             st, [])
          else
            let '(issuer, st, fetched) := resolveController net assertionKeyId st in
            let events := ResolveControllerEvent assertionKeyId :: map FetchEvent fetched in
            match issuer with
            | inl e => (inl e, st, events)
            | inr issuer =>
                let events := (events ++ [ResolveKeyEvent assertionKeyId])%list in
                match resolveKey (assertion issuer) assertionKeyId with
                | inl e => (inl e, st, events)
                | inr key =>
                    let events := (events ++ [VerifySignatureEvent assertionKeyId])%list in
                    match verifierVerify assertionKeyId key jwsString with
                    | inl e => (inl e, st, events)
                    | inr verifiedCredential =>
                        if validateSchema then
                          match validateCredentialSchemas verifiedCredential st with
                          | (Some e, st) =>
                              (inl e, st, (events ++ [ValidateSchemasEvent])%list)
                          | (None, st) =>
                              (inr verifiedCredential, st, (events ++ [ValidateSchemasEvent])%list)
                          end
                        else (inr verifiedCredential, st, events)
                    end
                end
            end
      end
  end.

End Verifier.

Arguments verifierVerify _ _ _ _ _ : assert.
Arguments verify {Ajv ValidateFunction} _ _ _ _ _ _ _.


(** ** Issuance *)

Record PrivateKey := {
  sk_kid : string;
  sk_alg : Algorithm;
  sk_x : string;
  sk_y : string;
  sk_d : string
}.

(** The persisted key material, one private key per role. *)
Record PrivateKeys := {
  assertionKey : option PrivateKey;
  authenticationKey : option PrivateKey
}.

Record IssueOptions := {
  validFrom : option string;
  validUntil : option string
}.

Record SignOptions := {
  opt_kid : string;
  opt_iat : option Z;
  opt_exp : option Z
}.

(** The call [signer(key).sign(payload, options)] that ends the issuance:
    the signer itself is not among the sources, the signed object is
    whatever it makes of these arguments. *)
Record SignCall := {
  sign_key : PrivateKey;
  sign_payload : JsonObject;
  sign_options : SignOptions
}.

(** [if (s) obj.key = s] for an optional string. *)
Definition optionalMember (key : string) (s : option string) : JsonObject :=
  match s with
  | Some v => if JsString.truthy v then [(key, JStr v)] else []
  | None => []
  end.

(** [issueCredential(issuerDid, privateKeyPath, credentialTypes,
    credentialSubjectData, options)]. [readKeys] is the file system: the
    parsed content of the key file, [None] when it cannot be read or is
    not JSON. *)
Definition issueCredential (readKeys : string -> option PrivateKeys)
    (issuerDid privateKeyPath : string) (credentialTypes : list string)
    (credentialSubjectData : JsonObject) (options : IssueOptions)
    : Error + SignCall :=
  match readKeys privateKeyPath with
  | None => inl (Err KeyFileError ("Cannot read " ++ privateKeyPath))
  | Some privateKeys =>
      match assertionKey privateKeys with
      | None => inl (Err AssertionKeyNotFoundError
                       "Assertion key not found in private key file")
      | Some assertionKey =>
          let credential :=
            ([("@context", JArr [JStr "https://www.w3.org/ns/credentials/v2"]);
              ("type", JArr (map JStr credentialTypes));
              ("issuer", JStr issuerDid);
              ("credentialSubject", JObj credentialSubjectData)]
             ++ optionalMember "validFrom" (validFrom options)
             ++ optionalMember "validUntil" (validUntil options))%list in
          inr {| sign_key := assertionKey;
                 sign_payload := credential;
                 sign_options := {| opt_kid := issuerDid ++ "#" ++ sk_kid assertionKey;
                                    opt_iat := None;
                                    opt_exp := None |} |}
      end
  end.

(** Modelled from the spec: the signer (src/credential/signer.ts) is not
    among the sources. Sections 3, 4.1 and 4.3: the header of the signed
    object is [{alg, kid}], with the algorithm of the key and the key
    identifier the caller supplies. *)
Definition signedHeader (call : SignCall) : JwsHeader :=
  {| alg := sk_alg (sign_key call);
     kid := opt_kid (sign_options call) |}.

(** Modelled from the spec: sections 4.1 and 4.3, the payload of the
    signed object is the payload the caller supplies, with the [iat] and
    [exp] claims when the caller supplies them and nothing else. *)
Definition signedPayload (call : SignCall) : JsonObject :=
  (sign_payload call
   ++ match opt_iat (sign_options call) with
      | Some t => [("iat", JNum t)]
      | None => []
      end
   ++ match opt_exp (sign_options call) with
      | Some t => [("exp", JNum t)]
      | None => []
      end)%list.

(** The strings of a [type] array. *)
Definition typeArray (credential : JsonObject) : option (list JSON) :=
  match member "type" credential with
  | Some (JArr items) => Some items
  | _ => None
  end.

(** The invariant of the data model: the base type and one more type. *)
Definition hasBaseAndSpecificType (credential : JsonObject) : Prop :=
  exists items, typeArray credential = Some items /\
    In (JStr "VerifiableCredential") items /\
    exists t, In (JStr t) items /\ t <> "VerifiableCredential".

(** ** Validity window of a credential that goes into a presentation *)

(** A [Date] is its time value in milliseconds, [None] for an invalid
    date: a time value beyond 8.64e15 ms in either direction. *)
Definition JsDate := option Z.

Definition newDate (ms : Z) : JsDate :=
  if Z.abs ms <=? 8640000000000000 then Some ms else None.

(** [a < b] on dates: false as soon as one of them is invalid. *)
Definition date_lt (a b : JsDate) : bool :=
  match a, b with
  | Some x, Some y => x <? y
  | _, _ => false
  end.

(** The registered claims the presentation workflow reads from a verified
    credential: numbers of seconds since the epoch, when present. *)
Record TimeClaims := {
  exp : option Z;
  nbf : option Z
}.

(** [if (credential.exp)]: present and not zero. *)
Definition claim_truthy (c : option Z) : bool :=
  match c with
  | Some n => negb (n =? 0)
  | None => false
  end.

Inductive Outcome :=
| Validated
| Exit (code : Z) (reason : string).

(** The expiration and not-before checks in the loop of step 4 of
    [createPresentation] (lines 270-292), on one verified credential. [nowExp] and [nowNbf] are the two readings of the clock,
    in milliseconds. *)
Definition checkValidityWindow (credential : TimeClaims) (nowExp nowNbf : Z) : Outcome :=
  let expired :=
    match exp credential with
    | Some e =>
        if claim_truthy (exp credential)
        then date_lt (newDate (e * 1000)) (Some nowExp)
        else false
    | None => false
    end in
  if expired then Exit 1 "Credential expired"
  else
    let notYetValid :=
      match nbf credential with
      | Some n =>
          if claim_truthy (nbf credential)
          then date_lt (Some nowNbf) (newDate (n * 1000))
          else false
      | None => false
      end in
    if notYetValid then Exit 1 "Credential not yet valid"
    else Validated.

(** The body of the loop of step 4 of [createPresentation] (lines
    266-300) for one credential: it is verified, then its validity window
    is checked; every failure ends the process with status 1. *)
Definition validateCredential (verified : Error + TimeClaims) (nowExp nowNbf : Z)
    : Outcome :=
  match verified with
  | inl e => Exit 1 "Credential verification failed"
  | inr credential => checkValidityWindow credential nowExp nowNbf
  end.

(** [Math.floor(Date.now() / 1000)]: the clock in seconds. *)
Definition epochSeconds (nowMs : Z) : Z := nowMs / 1000.


(** ** DID generation (src/cli/commands/did-generate.ts) *)

(** Lines 34-37 and 75 of [generateDid]: the DID of a domain with an
    optional path, [contoso.com/organizations/123]. *)
Definition didId (domainInput : string) : string :=
  let parts := split "/" domainInput in
  let domain := hd EmptyString parts in
  let pathParts := List.filter (fun p => (0 <? String.length p)%nat) (tl parts) in
  let didPath := if (0 <? length pathParts)%nat
                 then ":" ++ join ":" pathParts
                 else EmptyString in
  "did:web:" ++ domain ++ didPath.

(** A generated public key: its key identifier and the members of its
    JWK. Key generation itself ([generatePrivateKey], [exportPublicKey])
    is not among the sources. *)
Record PublicJwk := {
  jwk_kid : string;
  jwk_kty : string;
  jwk_crv : string;
  jwk_alg : string;
  jwk_x : string;
  jwk_y : string
}.

(** One entry of [verificationMethod] (lines 83-94). *)
Definition verificationMethodEntry (did : string) (key : PublicJwk) : JSON :=
  JObj [("id", JStr (did ++ "#" ++ jwk_kid key));
        ("type", JStr "JsonWebKey");
        ("controller", JStr did);
        ("publicKeyJwk", JObj [("kty", JStr (jwk_kty key));
                               ("crv", JStr (jwk_crv key));
                               ("alg", JStr (jwk_alg key));
                               ("x", JStr (jwk_x key));
                               ("y", JStr (jwk_y key))])].

(** Lines 75-119 of [generateDid]: the DID document written to
    [did.json]. *)
Definition didDocument (domainInput : string)
    (assertionPublicKey authenticationPublicKey : PublicJwk) (lei : option string)
    : JsonObject :=
  let did := didId domainInput in
  ([("@context", JArr [JStr "https://www.w3.org/ns/cid/v1"]);
    ("id", JStr did);
    ("verificationMethod",
     JArr [verificationMethodEntry did assertionPublicKey;
           verificationMethodEntry did authenticationPublicKey]);
    ("assertionMethod", JArr [JStr (did ++ "#" ++ jwk_kid assertionPublicKey)]);
    ("authentication", JArr [JStr (did ++ "#" ++ jwk_kid authenticationPublicKey)])]
   ++ match lei with
      | Some l => if JsString.truthy l
                  then [("alsoKnownAs", JArr [JStr ("urn:ietf:spice:glue:lei:" ++ l)])]
                  else []
      | None => []
      end)%list.

(** ** Configuration (src/unnamed/part_000) and the [credential sign]
    command (src/cli/commands/credential-sign.ts) *)

Record EnvironmentConfig := {
  llmProvider : string;
  llmApiKey : option string;
  azureOpenAIEndpoint : option string;
  azureOpenAIDeploymentName : option string;
  issuerDid : option string;
  privateKeyPath : option string;
  outputDir : option string
}.

(** [!!s] for an optional string: defined and not empty. *)
Definition string_truthy (s : option string) : bool :=
  match s with
  | Some v => JsString.truthy v
  | None => false
  end.

(** [a || b] on optional strings. *)
Definition string_or (a b : option string) : option string :=
  if string_truthy a then a else b.

Record ConfigValidation := {
  valid : bool;
  missing : list string
}.

(** [validateCredentialConfig(config)] *)
Definition validateCredentialConfig (config : EnvironmentConfig) : ConfigValidation :=
  let missing :=
    ((if string_truthy (llmApiKey config) then [] else ["LLM_API_KEY"])
     ++ (if string_truthy (issuerDid config) then [] else ["VC_CLI_ISSUER_DID"])
     ++ (if string_truthy (privateKeyPath config) then [] else ["VC_CLI_PRIVATE_KEY_PATH"]))%list in
  {| valid := (length missing =? 0)%nat; missing := missing |}.

(** [issueCredential] as the commands call it, under the name they import
    it by: the arguments come from a parsed file and are of any JSON
    type. The template string of the key identifier and the truthiness
    tests coerce them. *)
Definition issueVC (readKeys : string -> option PrivateKeys)
    (issuer : JSON) (keyPath : string) (credentialTypes : JSON)
    (credentialSubjectData : JSON) (validFromOption validUntilOption : option JSON)
    : Error + SignCall :=
  match readKeys keyPath with
  | None => inl (Err KeyFileError ("Cannot read " ++ keyPath))
  | Some privateKeys =>
      match assertionKey privateKeys with
      | None => inl (Err AssertionKeyNotFoundError
                       "Assertion key not found in private key file")
      | Some assertionKey =>
          let credential :=
            ([("@context", JArr [JStr "https://www.w3.org/ns/credentials/v2"]);
              ("type", credentialTypes);
              ("issuer", issuer);
              ("credentialSubject", credentialSubjectData)]
             ++ match validFromOption with
                | Some v => if js_truthy validFromOption then [("validFrom", v)] else []
                | None => []
                end
             ++ match validUntilOption with
                | Some v => if js_truthy validUntilOption then [("validUntil", v)] else []
                | None => []
                end)%list in
          inr {| sign_key := assertionKey;
                 sign_payload := credential;
                 sign_options := {| opt_kid := toString issuer ++ "#" ++ sk_kid assertionKey;
                                    opt_iat := None;
                                    opt_exp := None |} |}
      end
  end.

Record SignCredentialOptions := {
  option_issuer : option string;
  option_private_key : option string;
  option_output_path : option string
}.

(** How the command ends: [process.exit(1)] at one of its checks, an
    exception that leaves the function, or the call of the signer. *)
Inductive SignOutcome :=
| ExitConfiguration (missingVariables : list string)
| ExitFileNotFound (path : string)
| ExitInvalidJson
| ExitMissingField (field : string)
| Thrown (what : string)
| Signed (call : SignCall).

Section Commands.

(** The platform: [String.prototype.toLowerCase], [os.homedir()],
    [path.join] of two paths, the environment, and the file system. *)
Variable toLowerCase : string -> string.
Variable homedir : string.
Variable path_join : string -> string -> string.
Variable env : string -> option string.
Variable existsSync : string -> bool.
Variable readFile : string -> option string.
Variable JSON_parse : string -> option JSON.
Variable readKeys : string -> option PrivateKeys.

(** [expandPath(filepath)] (src/utils/path.ts) *)
Definition expandPath (filepath : string) : string :=
  if startsWith filepath "~/" then path_join homedir (drop 2 filepath) else filepath.

(** [loadFromEnv()] *)
Definition loadFromEnv : EnvironmentConfig :=
  {| llmProvider :=
       match env "LLM_PROVIDER" with
       | Some p => if JsString.truthy (toLowerCase p) then toLowerCase p else "claude"
       | None => "claude"
       end;
     llmApiKey := env "LLM_API_KEY";
     azureOpenAIEndpoint := env "AZURE_OPENAI_ENDPOINT";
     azureOpenAIDeploymentName := env "AZURE_OPENAI_DEPLOYMENT_NAME";
     issuerDid := env "VC_CLI_ISSUER_DID";
     privateKeyPath :=
       match env "VC_CLI_PRIVATE_KEY_PATH" with
       | Some p => if JsString.truthy p then Some (expandPath p) else None
       | None => None
       end;
     outputDir := string_or (env "VC_CLI_OUTPUT_DIR") (Some "./credentials") |}.

(** Lines 15-23 of [signCredential]: the environment, overridden by the
    options of the command line. *)
Definition signConfig (options : SignCredentialOptions) : EnvironmentConfig :=
  let config := loadFromEnv in
  {| llmProvider := llmProvider config;
     llmApiKey := llmApiKey config;
     azureOpenAIEndpoint := azureOpenAIEndpoint config;
     azureOpenAIDeploymentName := azureOpenAIDeploymentName config;
     issuerDid := if string_truthy (option_issuer options)
                  then option_issuer options else issuerDid config;
     privateKeyPath :=
       match option_private_key options with
       | Some p => if JsString.truthy p then Some (expandPath p) else privateKeyPath config
       | None => privateKeyPath config
       end;
     outputDir := outputDir config |}.

(** [signCredential(credentialFile, options)], steps 1 to 4: up to the
    call of the signer. Step 5 writes the signed credential to a file. *)
Definition signCredential (credentialFile : string) (options : SignCredentialOptions)
    : SignOutcome :=
  let config := signConfig options in
  let validation := validateCredentialConfig config in
  if negb (valid validation) then ExitConfiguration (missing validation)
  else
    let credentialPath := expandPath credentialFile in
    if negb (existsSync credentialPath) then ExitFileNotFound credentialPath
    else
      match readFile credentialPath with
      | None => ExitInvalidJson
      | Some fileContent =>
          match JSON_parse fileContent with
          | None => ExitInvalidJson
          | Some JNull => Thrown "TypeError: null has no properties"
          | Some credential =>
              if negb (js_truthy (property "@context" credential))
              then ExitMissingField "@context"
              else if negb (js_truthy (property "type" credential))
              then ExitMissingField "type"
              else if negb (js_truthy (property "credentialSubject" credential))
              then ExitMissingField "credentialSubject"
              else
                let type := default JNull (property "type" credential) in
                let credentialTypes := match type with
                                       | JArr _ => type
                                       | _ => JArr [type]
                                       end in
                let issuer :=
                  if js_truthy (property "issuer" credential)
                  then default JNull (property "issuer" credential)
                  else JStr (default EmptyString (issuerDid config)) in
                let credentialSubject :=
                  default JNull (property "credentialSubject" credential) in
                match issueVC readKeys issuer
                        (default EmptyString (privateKeyPath config))
                        credentialTypes credentialSubject
                        (property "validFrom" credential)
                        (property "validUntil" credential) with
                | inl e => Thrown (message e)
                | inr call => Signed call
                end
          end
      end.

End Commands.

(** ** Notions the properties are stated with *)

(** A domain or a path segment of a did:web identifier: a string without
    [:] and without [#]. *)
Definition isSegment (s : string) : bool :=
  negb (contains ":" s) && negb (contains "#" s).

(** The controller document cannot be obtained from the network: [fetch]
    rejects, the status is not a success, or the body is not JSON. *)
Definition fetchFailed (o : FetchOutcome) : bool :=
  match o with
  | NetworkFailure => true
  | Response ok body =>
      negb ok || match body with
                 | None => true
                 | Some _ => false
                 end
  end.

(** The payload names the issuer DID [d], as a bare string or as the [id]
    of an issuer object. *)
Definition hasIssuerDid (credential : JsonObject) (d : string) : Prop :=
  member "issuer" credential = Some (JStr d)
  \/ exists obj, member "issuer" credential = Some (JObj obj)
                 /\ member "id" obj = Some (JStr d).

(** The payload has no issuer field, or an issuer object without [id]. *)
Definition lacksIssuer (credential : JsonObject) : Prop :=
  member "issuer" credential = None
  \/ exists obj, member "issuer" credential = Some (JObj obj)
                 /\ member "id" obj = None.

(** The three stores of the resolver are object literals, so that an
    index expression [store[id]] also finds what the literal inherits:
    the members of [Object.prototype], under the names below, each of
    them a truthy value. A map of this development holds the own
    properties only. *)
Definition inheritedNames : list string :=
  ["constructor"; "hasOwnProperty"; "isPrototypeOf"; "propertyIsEnumerable";
   "toLocaleString"; "toString"; "valueOf"; "__proto__";
   "__defineGetter__"; "__defineSetter__"; "__lookupGetter__"; "__lookupSetter__"].

(** An identifier under which an object literal finds its own properties
    and nothing else. *)
Definition ownKey (id : string) : bool :=
  negb (existsb (String.eqb id) inheritedNames).

(** A store whose prototype is still [Object.prototype]: nothing was
    assigned under [__proto__], the one name whose assignment replaces the
    prototype instead of adding a property. For an [ownKey] identifier the
    index expression on such a store and the lookup in the map agree. *)
Definition plainObject {V : Type} (store : gmap string V) : Prop :=
  store !! "__proto__" = None.

(** ** Sample data for the examples *)

Module Sample.

Definition key1 : PublicKey :=
  {| pk_kid := "key-1"; pk_alg := ES256; pk_x := "x1"; pk_y := "y1" |}.

Definition doc : Controller :=
  {| ctrl_id := "did:web:example.com";
     verificationMethod :=
       Some [{| vm_id := "did:web:example.com#key-1";
                vm_type := "JsonWebKey";
                vm_controller := "did:web:example.com";
                publicKeyJwk := key1 |}];
     assertionMethod := Some ["did:web:example.com#key-1"];
     authentication := Some [] |}.

(** A compiler that accepts every schema and returns it as its own
    validator; the instance counts the compilations. *)
Definition compile (n : nat) (s : Schema) : option Schema * nat := (Some s, S n).

(** A resolver without controllers and schemas. *)
Definition empty : Resolver nat Schema := createGenericResolver Schema O [] [].

(** A network where every URL answers with [doc]. *)
Definition online : Network := fun _ => Response true (Some (ControllerDoc doc)).

(** A network where nothing is published. *)
Definition offline : Network := fun _ => Response false None.

(** The signed objects of the examples, by name: [spoofed] is signed with
    a key of [did:web:a.com] and claims the issuer [did:web:b.com],
    [anonymous] has no issuer, [genuine] is issued by
    [did:web:example.com] with its own key. *)
Definition parse (jws : string) : string + (JwsHeader * JsonObject) :=
  if String.eqb jws "spoofed" then
    inr ({| alg := ES256; kid := "did:web:a.com#key-1" |},
         [("issuer", JStr "did:web:b.com")])
  else if String.eqb jws "anonymous" then
    inr ({| alg := ES256; kid := "did:web:a.com#key-1" |},
         [("type", JArr [JStr "VerifiableCredential"])])
  else if String.eqb jws "genuine" then
    inr ({| alg := ES256; kid := "did:web:example.com#key-1" |},
         [("issuer", JObj [("id", JStr "did:web:example.com")])])
  else inl "Invalid JWS".

(** Every signature checks. *)
Definition anySignature (key : PublicKey) (jws : string) : bool := true.

(** No schema is validated. *)
Definition noSchemas (credential : JsonObject) (st : Resolver nat Schema)
    : option Error * Resolver nat Schema := (None, st).

Definition privateKey : PrivateKey :=
  {| sk_kid := "key-1"; sk_alg := ES256; sk_x := "x1"; sk_y := "y1"; sk_d := "d1" |}.

(** A file system with one key file. *)
Definition readKeys (path : string) : option PrivateKeys :=
  if String.eqb path "keys.json"
  then Some {| assertionKey := Some privateKey; authenticationKey := Some privateKey |}
  else None.

Definition noDates : IssueOptions := {| validFrom := None; validUntil := None |}.

End Sample.

(** ** A platform for the examples of the [credential sign] command *)

Module SignSample.

(** The environment of a configured installation. *)
Definition env (name : string) : option string :=
  if String.eqb name "LLM_API_KEY" then Some "sk-test"
  else if String.eqb name "VC_CLI_ISSUER_DID" then Some "did:web:env.example"
  else if String.eqb name "VC_CLI_PRIVATE_KEY_PATH" then Some "keys.json"
  else None.

(** The same installation without a key for the language model. *)
Definition envWithoutLlmKey (name : string) : option string :=
  if String.eqb name "VC_CLI_ISSUER_DID" then Some "did:web:env.example"
  else if String.eqb name "VC_CLI_PRIVATE_KEY_PATH" then Some "keys.json"
  else None.

Definition toLowerCase (s : string) : string := s.
Definition homedir : string := "/home/user".
Definition path_join (a b : string) : string := a ++ "/" ++ b.
Definition existsSync (path : string) : bool := true.

(** Every file holds its own name. *)
Definition readFile (path : string) : option string := Some path.

(** Two credential files: one names its issuer by a string, one by an
    object; both carry a context and members of their own. *)
Definition stringIssuerFile : JSON :=
  JObj [("@context", JArr [JStr "https://example.org/custom/v1"]);
        ("id", JStr "urn:uuid:0001");
        ("type", JStr "MillCertificate");
        ("issuer", JStr "did:web:file.example");
        ("credentialSubject", JObj [("heat", JStr "A1")])].

Definition objectIssuer : JsonObject := [("id", JStr "did:web:file.example")].

Definition objectIssuerMembers : JsonObject :=
  [("@context", JArr [JStr "https://www.w3.org/ns/credentials/v2"]);
   ("type", JArr [JStr "VerifiableCredential"; JStr "MillCertificate"]);
   ("issuer", JObj objectIssuer);
   ("credentialSubject", JObj [("heat", JStr "A1")])].

Definition JSON_parse (content : string) : option JSON :=
  if String.eqb content "string-issuer.json" then Some stringIssuerFile
  else if String.eqb content "object-issuer.json" then Some (JObj objectIssuerMembers)
  else None.

Definition noOptions : SignCredentialOptions :=
  {| option_issuer := None; option_private_key := None; option_output_path := None |}.

Definition issuerOption : SignCredentialOptions :=
  {| option_issuer := Some "did:web:flag.example";
     option_private_key := None; option_output_path := None |}.

End SignSample.

(** * Properties *)

(** ** Strings *)

Lemma append_cons (c : ascii) (a b : string) : String c a ++ b = String c (a ++ b).
Proof. reflexivity. Qed.

Lemma append_assoc (a b c : string) : (a ++ b) ++ c = a ++ (b ++ c).
Proof.
  induction a as [|x a IH]; [reflexivity|].
  rewrite !append_cons, IH. reflexivity.
Qed.

Lemma append_nil_l (b : string) : EmptyString ++ b = b.
Proof. reflexivity. Qed.

Lemma prefix_app (p s : string) : String.prefix p (p ++ s) = true.
Proof.
  induction p as [|c p IH]; [destruct s; reflexivity|].
  rewrite append_cons. simpl.
  destruct (ascii_dec c c) as [_|Hne]; [exact IH | contradiction].
Qed.

Lemma prefix_cons_inv (a : ascii) (p s : string) :
  String.prefix (String a p) s = true -> exists s', s = String a s'.
Proof.
  destruct s as [|b s']; simpl; [discriminate|].
  destruct (ascii_dec a b) as [->|]; [eauto | discriminate].
Qed.

(** No identifier of the did:web method is a name that a store
    inherits. *)
Lemma ownKey_did_web (id : string) :
  startsWith id "did:web:" = true -> ownKey id = true.
Proof.
  intros Hweb. destruct (prefix_cons_inv _ _ _ Hweb) as [s' ->]. reflexivity.
Qed.

Lemma startsWith_app (p s : string) : startsWith (p ++ s) p = true.
Proof. apply prefix_app. Qed.

Lemma drop_app (p s : string) : drop (String.length p) (p ++ s) = s.
Proof.
  induction p as [|c p IH]; [destruct s; reflexivity|].
  rewrite append_cons. exact IH.
Qed.

Lemma replace_unfold (pat rep s : string) :
  replace pat rep s =
  if String.prefix pat s then rep ++ drop (String.length pat) s
  else match s with
       | EmptyString => EmptyString
       | String c s' => String c (replace pat rep s')
       end.
Proof. destruct s; reflexivity. Qed.

Lemma replace_prefix (pat rep s : string) : replace pat rep (pat ++ s) = rep ++ s.
Proof. rewrite replace_unfold, prefix_app, drop_app. reflexivity. Qed.

Lemma contains_app (c : ascii) (a b : string) :
  contains c (a ++ b) = contains c a || contains c b.
Proof.
  induction a as [|x a IH]; [reflexivity|].
  rewrite append_cons. simpl. rewrite IH. apply orb_assoc.
Qed.

Lemma split_cons (sep : ascii) (s : string) :
  exists h t, split sep s = h :: t.
Proof.
  induction s as [|c s [h [t IH]]]; simpl; [eauto|].
  destruct (Ascii.eqb c sep); [eauto|]. rewrite IH. eauto.
Qed.

(** Splitting at the first separator. *)
Lemma split_app (sep : ascii) (a b : string) :
  contains sep a = false ->
  split sep (a ++ String sep b) = a :: split sep b.
Proof.
  induction a as [|c a IH]; intros Hc.
  - rewrite append_nil_l. simpl. now rewrite Ascii.eqb_refl.
  - simpl in Hc. apply orb_false_iff in Hc as [Hc1 Hc2].
    rewrite append_cons. simpl. rewrite Hc1, (IH Hc2). reflexivity.
Qed.

Lemma split_none (sep : ascii) (a : string) :
  contains sep a = false -> split sep a = [a].
Proof.
  induction a as [|c a IH]; simpl; intros Hc; [reflexivity|].
  apply orb_false_iff in Hc as [Hc1 Hc2].
  rewrite Hc1, (IH Hc2). reflexivity.
Qed.

Lemma join_cons2 (sep p q : string) (parts : list string) :
  join sep (p :: q :: parts) = p ++ sep ++ join sep (q :: parts).
Proof. reflexivity. Qed.

(** [split] undoes [join] on parts that are free of the separator. *)
Lemma split_join (sep : ascii) (p : string) (parts : list string) :
  forallb (fun s => negb (contains sep s)) (p :: parts) = true ->
  split sep (join (String sep EmptyString) (p :: parts)) = p :: parts.
Proof.
  revert p. induction parts as [|q parts IH]; intros p Hall.
  - simpl in *. apply andb_true_iff in Hall as [Hp _].
    apply split_none. now apply negb_true_iff.
  - rewrite join_cons2, append_cons, append_nil_l.
    simpl in Hall. apply andb_true_iff in Hall as [Hp Hrest].
    rewrite split_app by now apply negb_true_iff.
    rewrite IH; [reflexivity|]. exact Hrest.
Qed.

(** The first part of a split is free of the separator. *)
Lemma hd_split_free (sep : ascii) (s : string) :
  contains sep (hd EmptyString (split sep s)) = false.
Proof.
  induction s as [|c s IH]; simpl; [reflexivity|].
  destruct (Ascii.eqb c sep) eqn:Hc; [reflexivity|].
  destruct (split_cons sep s) as [h [t Hs]]. rewrite Hs in *. simpl in *.
  now rewrite Hc, IH.
Qed.

(** ** Controller resolution *)

Lemma isSegment_colon (l : list string) :
  forallb isSegment l = true -> forallb (fun s => negb (contains ":" s)) l = true.
Proof.
  induction l as [|s l IH]; simpl; [reflexivity|]. unfold isSegment at 1.
  intros H. apply andb_true_iff in H as [H1 H2].
  apply andb_true_iff in H1 as [H1 _]. now rewrite H1, IH.
Qed.

Lemma join_free (c : ascii) (sep : string) (l : list string) :
  contains c sep = false ->
  forallb (fun s => negb (contains c s)) l = true ->
  contains c (join sep l) = false.
Proof.
  intros Hsep. induction l as [|s l IH]; [reflexivity|].
  intros H. change (negb (contains c s) && forallb (fun s => negb (contains c s)) l = true) in H.
  apply andb_true_iff in H as [H1 H2]. apply negb_true_iff in H1.
  destruct l as [|q l]; [exact H1|].
  rewrite join_cons2, !contains_app, H1, Hsep, (IH H2). reflexivity.
Qed.

Lemma isSegment_hash (l : list string) :
  forallb isSegment l = true -> forallb (fun s => negb (contains "#" s)) l = true.
Proof.
  induction l as [|s l IH]; simpl; [reflexivity|]. unfold isSegment at 1.
  intros H. apply andb_true_iff in H as [H1 H2].
  apply andb_true_iff in H1 as [_ H1]. now rewrite H1, IH.
Qed.

(** The URL of the DID [did:web:<domain>:<seg1>:...:<segN>]. *)
Lemma didUrl_segments (domain : string) (segs : list string) :
  forallb isSegment (domain :: segs) = true ->
  didUrl ("did:web:" ++ join ":" (domain :: segs)) =
  match segs with
  | [] => "https://" ++ domain ++ "/.well-known/did.json"
  | _ => "https://" ++ domain ++ "/" ++ join "/" segs ++ "/did.json"
  end.
Proof.
  intros Hseg. unfold didUrl.
  rewrite replace_prefix, append_nil_l.
  rewrite split_join by now apply isSegment_colon.
  destruct segs; reflexivity.
Qed.

(** The DID of a key identifier is what precedes its fragment. *)
Lemma did_of_keyId (domain : string) (segs : list string) (frag : string) :
  forallb isSegment (domain :: segs) = true ->
  hd EmptyString (split "#" (("did:web:" ++ join ":" (domain :: segs)) ++ "#" ++ frag)) =
  "did:web:" ++ join ":" (domain :: segs).
Proof.
  intros Hseg.
  rewrite (append_cons "#" EmptyString frag), append_nil_l.
  rewrite split_app; [reflexivity|].
  rewrite contains_app. apply orb_false_iff. split; [reflexivity|].
  apply join_free; [reflexivity | now apply isSegment_hash].
Qed.

(** An identifier that is not stored and names a did:web DID is fetched
    from the URL of its DID, once. *)
Lemma resolveController_fetched {Ajv ValidateFunction : Type}
    (st : Resolver Ajv ValidateFunction) (net : Network) (id : string) :
  truthyController (controllerLookup st !! id) = None ->
  startsWith id "did:web:" = true ->
  snd (resolveController net id st) = [didUrl (hd EmptyString (split "#" id))].
Proof.
  intros Hno Hweb. unfold resolveController. rewrite Hno, Hweb.
  assert (Hdid : JsString.truthy (hd EmptyString (split "#" id)) = true).
  { destruct (prefix_cons_inv _ _ _ Hweb) as [s' ->]. simpl.
    destruct (split_cons "#" s') as [h [t ->]]. reflexivity. }
  rewrite Hdid.
  destruct (net _) as [|[] [[|c]|]]; simpl; rewrite ?Hno; reflexivity.
Qed.

(** C2. A key identifier [did:web:<domain>#<frag>] that is not stored
    locally makes [resolveController] issue one GET to
    [https://<domain>/.well-known/did.json]; a key identifier
    [did:web:<domain>:<seg1>:...:<segN>#<frag>] makes it issue one GET to
    [https://<domain>/<seg1>/.../<segN>/did.json]. *)
Theorem resolveController_fetch_url {Ajv ValidateFunction : Type}
    (st : Resolver Ajv ValidateFunction) (net : Network) (domain frag : string) :
  isSegment domain = true ->
  (controllerLookup st !! ("did:web:" ++ domain ++ "#" ++ frag) = None ->
   snd (resolveController net ("did:web:" ++ domain ++ "#" ++ frag) st) =
   ["https://" ++ domain ++ "/.well-known/did.json"])
  /\
  (forall (seg : string) (segs : list string),
     forallb isSegment (seg :: segs) = true ->
     controllerLookup st !!
       ("did:web:" ++ domain ++ ":" ++ join ":" (seg :: segs) ++ "#" ++ frag) = None ->
     snd (resolveController net
            ("did:web:" ++ domain ++ ":" ++ join ":" (seg :: segs) ++ "#" ++ frag) st) =
     ["https://" ++ domain ++ "/" ++ join "/" (seg :: segs) ++ "/did.json"]).
Proof.
  intros Hdom.
  assert (Hgen : forall segs, forallb isSegment segs = true ->
    let id := ("did:web:" ++ join ":" (domain :: segs)) ++ "#" ++ frag in
    controllerLookup st !! id = None ->
    snd (resolveController net id st) =
    [didUrl ("did:web:" ++ join ":" (domain :: segs))]).
  { intros segs Hsegs id Hno.
    assert (Hall : forallb isSegment (domain :: segs) = true)
      by (simpl; now rewrite Hdom, Hsegs).
    rewrite resolveController_fetched.
    - unfold id. now rewrite did_of_keyId.
    - now rewrite Hno.
    - unfold id. rewrite append_assoc. apply startsWith_app. }
  split.
  - intros Hno. specialize (Hgen [] eq_refl). cbv zeta in Hgen.
    rewrite didUrl_segments in Hgen by (simpl; now rewrite Hdom).
    change (join ":" [domain]) with domain in Hgen.
    rewrite append_assoc in Hgen. auto.
  - intros seg segs Hsegs Hno. specialize (Hgen (seg :: segs) Hsegs). cbv zeta in Hgen.
    rewrite didUrl_segments in Hgen
      by (change (isSegment domain && forallb isSegment (seg :: segs) = true);
          now rewrite Hdom, Hsegs).
    rewrite join_cons2, !append_assoc in Hgen. auto.
Qed.

Lemma resolveController_fetch_url_witness :
  snd (resolveController Sample.offline "did:web:example.com#key-1" Sample.empty) =
  ["https://example.com/.well-known/did.json"]
  /\
  snd (resolveController Sample.offline "did:web:example.com:org:alpha#key-1" Sample.empty) =
  ["https://example.com/org/alpha/did.json"].
Proof.
  split.
  - apply (proj1 (resolveController_fetch_url Sample.empty Sample.offline
                    "example.com" "key-1" eq_refl)).
    reflexivity.
  - apply (proj2 (resolveController_fetch_url Sample.empty Sample.offline
                    "example.com" "key-1" eq_refl) "org" ["alpha"]).
    + reflexivity.
    + reflexivity.
Defined.

(** C4. When the controller document of a key identifier cannot be
    obtained (nothing is stored under it and the fetch fails or answers
    with a non-success status), [resolveController] fails with
    [ControllerNotFoundError] and leaves the resolver as it was: nothing
    negative is cached, and a later call with the same identifier
    fetches again, whatever the network then answers. *)
Theorem resolveController_unavailable {Ajv ValidateFunction : Type}
    (st : Resolver Ajv ValidateFunction) (net later : Network) (id : string) :
  controllerLookup st !! id = None ->
  startsWith id "did:web:" = true ->
  fetchFailed (net (didUrl (hd EmptyString (split "#" id)))) = true ->
  fst (fst (resolveController net id st)) =
    inl (Err ControllerNotFoundError ("Controller not found for id: " ++ id))
  /\ snd (fst (resolveController net id st)) = st
  /\ snd (resolveController later id (snd (fst (resolveController net id st)))) =
     [didUrl (hd EmptyString (split "#" id))].
Proof.
  intros Hno Hweb Hfail.
  assert (Hres : resolveController net id st =
    (inl (Err ControllerNotFoundError ("Controller not found for id: " ++ id)), st,
     [didUrl (hd EmptyString (split "#" id))])).
  { unfold resolveController. rewrite Hno. cbn [truthyController]. rewrite Hweb.
    destruct (JsString.truthy (hd EmptyString (split "#" id))) eqn:Hdid.
    - destruct (net _) as [|[] [v|]]; try reflexivity. discriminate Hfail.
    - pose proof (resolveController_fetched st net id) as Hf.
      unfold resolveController in Hf. rewrite Hno in Hf. cbn [truthyController] in Hf.
      rewrite Hweb, Hdid in Hf. specialize (Hf eq_refl eq_refl). discriminate Hf. }
  rewrite Hres. cbn [fst snd]. repeat split.
  apply resolveController_fetched; [now rewrite Hno | exact Hweb].
Qed.

Lemma resolveController_unavailable_witness :
  fst (fst (resolveController Sample.offline "did:web:example.com#key-1" Sample.empty)) =
    inl (Err ControllerNotFoundError
           "Controller not found for id: did:web:example.com#key-1")
  /\ snd (fst (resolveController Sample.offline "did:web:example.com#key-1" Sample.empty)) =
     Sample.empty
  /\ snd (resolveController Sample.online "did:web:example.com#key-1"
            (snd (fst (resolveController Sample.offline "did:web:example.com#key-1"
                         Sample.empty)))) =
     ["https://example.com/.well-known/did.json"].
Proof.
  apply (resolveController_unavailable Sample.empty Sample.offline Sample.online
           "did:web:example.com#key-1"); reflexivity.
Defined.

(** After a successful fetch the document is stored under the DID, and a
    key identifier with a fragment is still not a key of the store. *)
Lemma resolveController_stores_under_did {Ajv ValidateFunction : Type}
    (st : Resolver Ajv ValidateFunction) (net : Network) (id : string) (c : Controller) :
  controllerLookup st !! id = None ->
  startsWith id "did:web:" = true ->
  contains "#" id = true ->
  net (didUrl (hd EmptyString (split "#" id))) = Response true (Some (ControllerDoc c)) ->
  let st' := snd (fst (resolveController net id st)) in
  fst (fst (resolveController net id st)) = inr (partitionKeys c)
  /\ controllerLookup st' !! hd EmptyString (split "#" id) = Some (ControllerDoc c)
  /\ controllerLookup st' !! id = None.
Proof.
  intros Hno Hweb Hfrag Hnet.
  assert (Hdid : JsString.truthy (hd EmptyString (split "#" id)) = true).
  { destruct (prefix_cons_inv _ _ _ Hweb) as [s' ->]. simpl.
    destruct (split_cons "#" s') as [h [t ->]]. reflexivity. }
  assert (Hne : hd EmptyString (split "#" id) <> id).
  { intros Heq. pose proof (hd_split_free "#" id) as Hfree.
    rewrite Heq, Hfrag in Hfree. discriminate Hfree. }
  unfold resolveController. rewrite Hno. cbn [truthyController].
  rewrite Hweb, Hdid, Hnet. cbn. repeat split.
  - apply lookup_insert_eq.
  - rewrite lookup_insert_ne by exact Hne. exact Hno.
Qed.

(** A key identifier with a fragment is therefore never served from the
    store by a later call: the same URL is fetched again. *)
Lemma resolveController_refetch {Ajv ValidateFunction : Type}
    (st : Resolver Ajv ValidateFunction) (net later : Network) (id : string) (c : Controller) :
  controllerLookup st !! id = None ->
  startsWith id "did:web:" = true ->
  contains "#" id = true ->
  net (didUrl (hd EmptyString (split "#" id))) = Response true (Some (ControllerDoc c)) ->
  snd (resolveController later id (snd (fst (resolveController net id st)))) =
  [didUrl (hd EmptyString (split "#" id))].
Proof.
  intros Hno Hweb Hfrag Hnet.
  destruct (resolveController_stores_under_did st net id c Hno Hweb Hfrag Hnet)
    as (_ & _ & Hstill).
  apply resolveController_fetched; [now rewrite Hstill | exact Hweb].
Qed.

(** C3, on the code: the key identifier [did:web:example.com#key-1] is
    resolved twice on a network that serves the document. The first call
    fetches it and stores it under [did:web:example.com]; the second call
    looks the store up under the whole key identifier, finds nothing and
    fetches the document again. *)
Theorem resolveController_fetches_twice :
  let id := "did:web:example.com#key-1" in
  let url := "https://example.com/.well-known/did.json" in
  let first := resolveController Sample.online id Sample.empty in
  let second := resolveController Sample.online id (snd (fst first)) in
  fst (fst first) = inr (partitionKeys Sample.doc)
  /\ snd first = [url]
  /\ controllerLookup (snd (fst first)) !! "did:web:example.com" =
     Some (ControllerDoc Sample.doc)
  /\ controllerLookup (snd (fst first)) !! id = None
  /\ fst (fst second) = inr (partitionKeys Sample.doc)
  /\ snd second = [url].
Proof.
  cbv zeta. repeat split.
Qed.

(** ** Schema resolution *)

Section SchemaProperties.

Context {Ajv ValidateFunction : Type}.
Variable ajv_compile : Ajv -> Schema -> option ValidateFunction * Ajv.

Local Abbreviation State := (Resolver Ajv ValidateFunction).
Local Abbreviation notFound id :=
  (Err SchemaNotFoundError ("Schema not found for id: " ++ id)).

(** Controller resolution leaves the schemas and the cache alone. *)
Lemma resolveController_schemas (net : Network) (id : string) (st : State) :
  schemaLookup (snd (fst (resolveController net id st))) = schemaLookup st
  /\ compiledSchemaCache (snd (fst (resolveController net id st))) = compiledSchemaCache st.
Proof.
  unfold resolveController.
  destruct (truthyController (controllerLookup st !! id)) as [c|] eqn:Hc.
  - rewrite Hc. split; reflexivity.
  - destruct (startsWith id "did:web:"); [|rewrite Hc; split; reflexivity].
    destruct (JsString.truthy _); [|rewrite Hc; split; reflexivity].
    destruct (net _) as [|[] [[|c]|]]; cbn; rewrite ?Hc; split; reflexivity.
Qed.

(** A lookup that misses the cache goes to the registered schema. *)
Lemma resolveSchema_uncached (id : string) (st : State) :
  compiledSchemaCache st !! id = None ->
  resolveSchema ajv_compile id st =
  match schemaLookup st !! id with
  | Some schema =>
      if schema_truthy schema then
        match ajv_compile (ajv st) schema with
        | (Some validate, ajv') =>
            (inr validate,
             {| controllerLookup := controllerLookup st;
                schemaLookup := schemaLookup st;
                compiledSchemaCache := <[id := validate]> (compiledSchemaCache st);
                ajv := ajv';
                compileCalls := S (compileCalls st) |})
        | (None, ajv') =>
            (inl (Err SchemaCompileError "schema is invalid"),
             {| controllerLookup := controllerLookup st;
                schemaLookup := schemaLookup st;
                compiledSchemaCache := compiledSchemaCache st;
                ajv := ajv';
                compileCalls := S (compileCalls st) |})
        end
      else (inl (notFound id), st)
  | None => (inl (notFound id), st)
  end.
Proof.
  intros Hmiss. unfold resolveSchema. rewrite Hmiss.
  destruct (schemaLookup st !! id) as [schema|]; [|reflexivity].
  destruct (schema_truthy schema); [|reflexivity].
  destruct (ajv_compile (ajv st) schema) as [[v|] a]; reflexivity.
Qed.

(** A validator that [resolveSchema] returns is in the cache afterwards. *)
Lemma resolveSchema_caches (id : string) (st st1 : State) (v : ValidateFunction) :
  resolveSchema ajv_compile id st = (inr v, st1) ->
  compiledSchemaCache st1 !! id = Some v.
Proof.
  unfold resolveSchema.
  destruct (compiledSchemaCache st !! id) as [cached|] eqn:Hc.
  - intros [= <- <-]. exact Hc.
  - destruct (schemaLookup st !! id) as [schema|]; [|discriminate].
    destruct (schema_truthy schema); [|discriminate].
    destruct (ajv_compile (ajv st) schema) as [[w|] a]; [|discriminate].
    intros [= <- <-]. cbn. apply lookup_insert_eq.
Qed.

(** A cached validator is returned without compiling and without any
    change of the resolver. *)
Lemma resolveSchema_hit (id : string) (st : State) (v : ValidateFunction) :
  compiledSchemaCache st !! id = Some v ->
  resolveSchema ajv_compile id st = (inr v, st).
Proof. intros Hc. unfold resolveSchema. now rewrite Hc. Qed.

(** A first lookup of a registered schema compiles it, once, and stores
    the validator; a second lookup returns the stored validator and does
    not ask the compiler again, whatever the compiler would answer by
    then. The schema is a schema object or [true], the compiler accepts
    it, and the identifier is none that the cache inherits. *)
Theorem resolveSchema_compiles_once (st : State) (id : string) (schema : Schema)
    (v : ValidateFunction) (ajv' : Ajv) :
  ownKey id = true ->
  plainObject (compiledSchemaCache st) ->
  compiledSchemaCache st !! id = None ->
  schemaLookup st !! id = Some schema ->
  schema_truthy schema = true ->
  ajv_compile (ajv st) schema = (Some v, ajv') ->
  let st1 := {| controllerLookup := controllerLookup st;
                schemaLookup := schemaLookup st;
                compiledSchemaCache := <[id := v]> (compiledSchemaCache st);
                ajv := ajv';
                compileCalls := S (compileCalls st) |} in
  resolveSchema ajv_compile id st = (inr v, st1)
  /\ resolveSchema ajv_compile id st1 = (inr v, st1).
Proof.
  intros _ _ Hmiss Hs Ht Hcomp st1. split.
  - rewrite resolveSchema_uncached by exact Hmiss. now rewrite Hs, Ht, Hcomp.
  - apply resolveSchema_hit. cbn. apply lookup_insert_eq.
Qed.

(** Registering a schema under an id discards the validator cached for
    that id: the next lookup compiles the schema just registered and
    returns and stores what the compiler made of it, when the schema is a
    schema object or [true], the compiler accepts it, and the identifier is
    none that the cache inherits. *)
Theorem addSchema_recompiles (st : State) (id : string) (schema : Schema)
    (v : ValidateFunction) (ajv' : Ajv) :
  ownKey id = true ->
  plainObject (compiledSchemaCache st) ->
  schema_truthy schema = true ->
  ajv_compile (ajv st) schema = (Some v, ajv') ->
  resolveSchema ajv_compile id (addSchema id schema st) =
  (inr v,
   {| controllerLookup := controllerLookup st;
      schemaLookup := <[id := schema]> (schemaLookup st);
      compiledSchemaCache := <[id := v]> (delete id (compiledSchemaCache st));
      ajv := ajv';
      compileCalls := S (compileCalls st) |}).
Proof.
  intros _ _ Htruthy Hcompile.
  rewrite resolveSchema_uncached by (cbn; apply lookup_delete_eq).
  cbn. now rewrite lookup_insert_eq, Htruthy, Hcompile.
Qed.

(** The boolean schema [false] is a value the truthiness test of
    [resolveSchema] takes for a missing entry: registered under an
    identifier that the cache does not inherit, it is reported as not found
    and never compiled. *)
Theorem resolveSchema_false_schema (st : State) (id : string) :
  ownKey id = true ->
  plainObject (compiledSchemaCache st) ->
  resolveSchema ajv_compile id (addSchema id (SchemaBool false) st) =
  (inl (notFound id), addSchema id (SchemaBool false) st).
Proof.
  intros _ _.
  rewrite resolveSchema_uncached by (cbn; apply lookup_delete_eq).
  cbn. now rewrite lookup_insert_eq.
Qed.

End SchemaProperties.

(** C5. A schema id can be registered and still not resolve: the boolean
    schema [false], registered under an ordinary id of a fresh resolver,
    is what the test [!schema] of [resolveSchema] takes for a missing
    entry. The call fails with [SchemaNotFoundError] for a registered id,
    the compiler is never asked, and a second call fails in the same
    way. *)
Theorem registered_false_schema_not_found {Ajv ValidateFunction : Type} (ajv_new : Ajv)
    (ajv_compile : Ajv -> Schema -> option ValidateFunction * Ajv) :
  let id := "https://example.com/schemas/mill-cert.json" in
  let st := addSchema id (SchemaBool false)
              (createGenericResolver ValidateFunction ajv_new [] []) in
  let failure := Err SchemaNotFoundError
    "Schema not found for id: https://example.com/schemas/mill-cert.json" in
  schemaLookup st !! id = Some (SchemaBool false)
  /\ resolveSchema ajv_compile id st = (inl failure, st)
  /\ resolveSchema ajv_compile id (snd (resolveSchema ajv_compile id st)) = (inl failure, st)
  /\ compileCalls st = O.
Proof.
  cbv zeta.
  assert (Hcall : forall st : Resolver Ajv ValidateFunction,
            compiledSchemaCache st !! "https://example.com/schemas/mill-cert.json" = None ->
            schemaLookup st !! "https://example.com/schemas/mill-cert.json" =
              Some (SchemaBool false) ->
            resolveSchema ajv_compile "https://example.com/schemas/mill-cert.json" st =
            (inl (Err SchemaNotFoundError
                    "Schema not found for id: https://example.com/schemas/mill-cert.json"),
             st)).
  { intros st Hmiss Hs. unfold resolveSchema. rewrite Hmiss, Hs. reflexivity. }
  split; [cbn; apply lookup_insert_eq|].
  rewrite !Hcall; cbn; try apply lookup_delete_eq; try apply lookup_insert_eq.
  repeat split.
Qed.

(** C6. After [addSchema] the next [resolveSchema] need not compile the
    schema just supplied: a validator was compiled and cached for an id,
    then the boolean schema [false] is registered under that id. The cache
    entry is gone and the new raw schema is stored, but the next call
    fails with [SchemaNotFoundError] and the compiler is not asked. *)
Theorem addSchema_false_not_compiled :
  let id := "https://example.com/schemas/mill-cert.json" in
  let old := addSchema id (SchemaObject "{type: object}") Sample.empty in
  let cached := snd (resolveSchema Sample.compile id old) in
  let st := addSchema id (SchemaBool false) cached in
  compiledSchemaCache cached !! id = Some (SchemaObject "{type: object}")
  /\ compileCalls cached = 1%nat
  /\ compiledSchemaCache st !! id = None
  /\ schemaLookup st !! id = Some (SchemaBool false)
  /\ resolveSchema Sample.compile id st =
     (inl (Err SchemaNotFoundError
             "Schema not found for id: https://example.com/schemas/mill-cert.json"),
      st)
  /\ compileCalls (snd (resolveSchema Sample.compile id st)) = 1%nat.
Proof.
  cbv zeta. repeat split.
Qed.

Lemma resolveSchema_compiles_once_witness :
  let id := "https://example.com/schemas/mill-cert.json" in
  let fresh := fun (n : nat) (s : Schema) => (Some (n, s), S n) in
  let st := addSchema id (SchemaObject "{}")
              (createGenericResolver (nat * Schema) O [] []) in
  fst (resolveSchema fresh id st) = inr (O, SchemaObject "{}")
  /\ fst (resolveSchema fresh id (snd (resolveSchema fresh id st))) =
     inr (O, SchemaObject "{}")
  /\ compileCalls (snd (resolveSchema fresh id (snd (resolveSchema fresh id st)))) = 1%nat.
Proof.
  cbv zeta.
  destruct (resolveSchema_compiles_once
              (fun (n : nat) (s : Schema) => (Some (n, s), S n))
              (addSchema "https://example.com/schemas/mill-cert.json" (SchemaObject "{}")
                 (createGenericResolver (nat * Schema) O [] []))
              "https://example.com/schemas/mill-cert.json" (SchemaObject "{}")
              (O, SchemaObject "{}") 1%nat
              eq_refl eq_refl eq_refl eq_refl eq_refl eq_refl) as [Hfirst Hsecond].
  rewrite Hfirst. cbn [fst snd]. rewrite Hsecond. repeat split.
Defined.

Lemma addSchema_recompiles_witness :
  let id := "https://example.com/schemas/mill-cert.json" in
  let old := addSchema id (SchemaObject "{type: object}") Sample.empty in
  let cached := snd (resolveSchema Sample.compile id old) in
  compiledSchemaCache cached !! id = Some (SchemaObject "{type: object}")
  /\ fst (resolveSchema Sample.compile id (addSchema id (SchemaObject "{type: array}") cached)) =
     inr (SchemaObject "{type: array}").
Proof.
  cbv zeta. split; [reflexivity|].
  rewrite (addSchema_recompiles Sample.compile
             (snd (resolveSchema Sample.compile "https://example.com/schemas/mill-cert.json"
                     (addSchema "https://example.com/schemas/mill-cert.json"
                        (SchemaObject "{type: object}") Sample.empty)))
             "https://example.com/schemas/mill-cert.json" (SchemaObject "{type: array}")
             (SchemaObject "{type: array}") 2%nat eq_refl eq_refl eq_refl eq_refl).
  reflexivity.
Defined.

Lemma resolveSchema_false_schema_witness :
  resolveSchema Sample.compile "urn:a" (addSchema "urn:a" (SchemaBool false) Sample.empty) =
  (inl (Err SchemaNotFoundError "Schema not found for id: urn:a"),
   addSchema "urn:a" (SchemaBool false) Sample.empty).
Proof.
  apply (resolveSchema_false_schema Sample.compile Sample.empty "urn:a"); reflexivity.
Defined.

(** ** Credential verification *)

Lemma prefix_nil (s : string) : String.prefix EmptyString s = true.
Proof. destruct s; reflexivity. Qed.

Lemma truthy_nonempty (s : string) : s <> EmptyString -> JsString.truthy s = true.
Proof. destruct s; [congruence | reflexivity]. Qed.

(** The issuer is normalized to the DID the payload names. *)
Lemma issuerDidOf_present (credential : JsonObject) (d : string) :
  d <> EmptyString -> hasIssuerDid credential d -> issuerDidOf credential = inr d.
Proof.
  intros Hd [Hstr | (obj & Hobj & Hid)]; unfold issuerDidOf.
  - rewrite Hstr. cbn. now rewrite (truthy_nonempty d Hd).
  - rewrite Hobj. cbn. rewrite Hid. cbn. now rewrite (truthy_nonempty d Hd).
Qed.

Lemma issuerDidOf_absent (credential : JsonObject) :
  lacksIssuer credential ->
  exists msg, issuerDidOf credential = inl (Err MissingIssuerError msg).
Proof.
  intros [Hnone | (obj & Hobj & Hid)]; unfold issuerDidOf.
  - rewrite Hnone. cbn. eauto.
  - rewrite Hobj. cbn. rewrite Hid. eauto.
Qed.

Section VerifierProperties.

Context {Ajv ValidateFunction : Type}.
Variable parseJWS : string -> string + (JwsHeader * JsonObject).
Variable signatureValid : PublicKey -> string -> bool.
Variable validateCredentialSchemas :
  JsonObject -> Resolver Ajv ValidateFunction ->
  option Error * Resolver Ajv ValidateFunction.

Local Abbreviation State := (Resolver Ajv ValidateFunction).
Local Abbreviation run net jws validateSchema st :=
  (verify parseJWS signatureValid validateCredentialSchemas net jws validateSchema st).

(** Once the binding check passes, the verifier goes on to resolve the
    controller of the key. *)
Lemma verify_proceeds (net : Network) (jws : string) (validateSchema : bool) (st : State)
    (header : JwsHeader) (credential : JsonObject) (d : string) :
  parseJWS jws = inr (header, credential) ->
  issuerDidOf credential = inr d ->
  startsWith (kid header) d = true ->
  exists rest, snd (run net jws validateSchema st) =
               ResolveControllerEvent (kid header) :: rest.
Proof.
  intros Hparse Hissuer Hbind. unfold verify. rewrite Hparse, Hissuer, Hbind. cbn [negb].
  destruct (resolveController net (kid header) st) as [[[e|keys] st1] fetched];
    [cbn; eauto|].
  destruct (resolveKey (assertion keys) (kid header)) as [e|key]; [cbn; eauto|].
  destruct (verifierVerify parseJWS signatureValid (kid header) key jws) as [e|payload];
    [cbn; eauto|].
  destruct validateSchema; [|cbn; eauto].
  destruct (validateCredentialSchemas payload st1) as [[e|] st2]; cbn; eauto.
Qed.

(** A failed binding check ends the verification on the spot. *)
Lemma verify_mismatch (net : Network) (jws : string) (validateSchema : bool) (st : State)
    (header : JwsHeader) (credential : JsonObject) (d : string) :
  parseJWS jws = inr (header, credential) ->
  issuerDidOf credential = inr d ->
  startsWith (kid header) d = false ->
  run net jws validateSchema st =
  (inl (Err IssuerKeyMismatchError
          ("Credential issuer " ++ d ++ " does not match assertion key " ++ kid header)),
   st, []).
Proof.
  intros Hparse Hissuer Hbind. unfold verify. now rewrite Hparse, Hissuer, Hbind.
Qed.

(** C1. A signed object whose payload names the issuer DID [d] and whose
    header [kid] does not start with [d] fails with
    [IssuerKeyMismatchError], before anything is resolved or checked and
    whatever the signature check would answer; the verifier reaches the
    controller resolution only with a [kid] that starts with [d]. *)
Theorem verify_issuer_key_binding (net : Network) (jws : string) (validateSchema : bool)
    (st : State) (header : JwsHeader) (credential : JsonObject) (d : string) :
  parseJWS jws = inr (header, credential) ->
  hasIssuerDid credential d ->
  (startsWith (kid header) d = false ->
   run net jws validateSchema st =
   (inl (Err IssuerKeyMismatchError
           ("Credential issuer " ++ d ++ " does not match assertion key " ++ kid header)),
    st, []))
  /\ (snd (run net jws validateSchema st) <> [] -> startsWith (kid header) d = true).
Proof.
  intros Hparse Hissuer.
  assert (Hfail : startsWith (kid header) d = false ->
    run net jws validateSchema st =
    (inl (Err IssuerKeyMismatchError
            ("Credential issuer " ++ d ++ " does not match assertion key " ++ kid header)),
     st, [])).
  { intros Hbind. apply verify_mismatch with credential; [exact Hparse | | exact Hbind].
    apply issuerDidOf_present; [|exact Hissuer].
    intros ->. unfold startsWith in Hbind. rewrite prefix_nil in Hbind. discriminate. }
  split; [exact Hfail|].
  intros Hevents. destruct (startsWith (kid header) d) eqn:Hbind; [reflexivity|].
  rewrite (Hfail eq_refl) in Hevents. now contradiction Hevents.
Qed.

(** C7. A parseable signed object whose payload has no issuer, or an
    issuer object without [id], fails with [MissingIssuerError] before
    any controller is resolved and any signature checked. An issuer that
    is present is normalized to its DID string, from a bare string as
    from an object [{id: DID}], and the verification goes on with it. *)
Theorem verify_missing_issuer (net : Network) (jws : string) (validateSchema : bool)
    (st : State) (header : JwsHeader) (credential : JsonObject) :
  parseJWS jws = inr (header, credential) ->
  (lacksIssuer credential ->
   exists msg, run net jws validateSchema st = (inl (Err MissingIssuerError msg), st, []))
  /\ (forall d : string, d <> EmptyString -> hasIssuerDid credential d ->
      issuerDidOf credential = inr d
      /\ (startsWith (kid header) d = true ->
          exists rest, snd (run net jws validateSchema st) =
                       ResolveControllerEvent (kid header) :: rest)).
Proof.
  intros Hparse. split.
  - intros Hlack. destruct (issuerDidOf_absent credential Hlack) as [msg Hmsg].
    exists msg. unfold verify. now rewrite Hparse, Hmsg.
  - intros d Hd Hissuer.
    pose proof (issuerDidOf_present credential d Hd Hissuer) as Hdid.
    split; [exact Hdid|]. intros Hbind.
    now apply verify_proceeds with credential d.
Qed.

End VerifierProperties.

Lemma verify_issuer_key_binding_witness :
  verify Sample.parse Sample.anySignature Sample.noSchemas Sample.online
    "spoofed" false Sample.empty =
  (inl (Err IssuerKeyMismatchError
          "Credential issuer did:web:b.com does not match assertion key did:web:a.com#key-1"),
   Sample.empty, []).
Proof.
  apply (proj1 (verify_issuer_key_binding Sample.parse Sample.anySignature Sample.noSchemas
                  Sample.online "spoofed" false Sample.empty
                  {| alg := ES256; kid := "did:web:a.com#key-1" |}
                  [("issuer", JStr "did:web:b.com")] "did:web:b.com"
                  eq_refl (or_introl eq_refl))).
  reflexivity.
Defined.

Lemma verify_missing_issuer_witness :
  (exists msg,
     verify Sample.parse Sample.anySignature Sample.noSchemas Sample.online
       "anonymous" false Sample.empty =
     (inl (Err MissingIssuerError msg), Sample.empty, []))
  /\ issuerDidOf [("issuer", JObj [("id", JStr "did:web:example.com")])] =
     inr "did:web:example.com".
Proof.
  split.
  - apply (proj1 (verify_missing_issuer Sample.parse Sample.anySignature Sample.noSchemas
                    Sample.online "anonymous" false Sample.empty
                    {| alg := ES256; kid := "did:web:a.com#key-1" |}
                    [("type", JArr [JStr "VerifiableCredential"])] eq_refl)).
    left. reflexivity.
  - apply (proj2 (verify_missing_issuer Sample.parse Sample.anySignature Sample.noSchemas
                    Sample.online "genuine" false Sample.empty
                    {| alg := ES256; kid := "did:web:example.com#key-1" |}
                    [("issuer", JObj [("id", JStr "did:web:example.com")])] eq_refl)
             "did:web:example.com").
    + discriminate.
    + right. exists [("id", JStr "did:web:example.com")]. split; reflexivity.
Defined.

(** ** Issuance *)

Lemma member_app_l (key : string) (a b : JsonObject) (v : JSON) :
  member key a = Some v -> member key (a ++ b)%list = Some v.
Proof.
  induction a as [|[k w] a IH]; [discriminate|]. simpl.
  destruct (String.eqb k key); [auto | exact IH].
Qed.

(** What [issueCredential] hands to the signer. *)
Lemma issueCredential_call (readKeys : string -> option PrivateKeys)
    (issuerDid privateKeyPath : string) (credentialTypes : list string)
    (credentialSubjectData : JsonObject) (options : IssueOptions) (call : SignCall) :
  issueCredential readKeys issuerDid privateKeyPath credentialTypes
    credentialSubjectData options = inr call ->
  opt_kid (sign_options call) = issuerDid ++ "#" ++ sk_kid (sign_key call)
  /\ opt_iat (sign_options call) = None
  /\ opt_exp (sign_options call) = None
  /\ member "issuer" (sign_payload call) = Some (JStr issuerDid)
  /\ member "type" (sign_payload call) = Some (JArr (map JStr credentialTypes)).
Proof.
  unfold issueCredential.
  destruct (readKeys privateKeyPath) as [keys|]; [|discriminate].
  destruct (assertionKey keys) as [key|]; [|discriminate].
  intros [= <-]. cbn [sign_options sign_payload sign_key opt_kid opt_iat opt_exp].
  repeat split; apply member_app_l; reflexivity.
Qed.

Lemma In_JStr (t : string) (types : list string) :
  In (JStr t) (map JStr types) <-> In t types.
Proof.
  rewrite in_map_iff. split.
  - intros (x & [= ->] & Hx). exact Hx.
  - intros Ht. eauto.
Qed.

(** C8, as the code has it: the [type] array of an issued credential is
    the [credentialTypes] array of the caller, unchanged; it has the base
    type and a more specific type exactly when the caller's array has
    them. *)
Theorem issueCredential_type_passthrough (readKeys : string -> option PrivateKeys)
    (issuerDid privateKeyPath : string) (credentialTypes : list string)
    (credentialSubjectData : JsonObject) (options : IssueOptions) (call : SignCall) :
  issueCredential readKeys issuerDid privateKeyPath credentialTypes
    credentialSubjectData options = inr call ->
  typeArray (sign_payload call) = Some (map JStr credentialTypes)
  /\ (hasBaseAndSpecificType (sign_payload call) <->
      In "VerifiableCredential" credentialTypes
      /\ exists t, In t credentialTypes /\ t <> "VerifiableCredential").
Proof.
  intros Hcall.
  destruct (issueCredential_call _ _ _ _ _ _ _ Hcall) as (_ & _ & _ & _ & Htype).
  assert (Harr : typeArray (sign_payload call) = Some (map JStr credentialTypes))
    by (unfold typeArray; now rewrite Htype).
  split; [exact Harr|]. unfold hasBaseAndSpecificType. rewrite Harr. split.
  - intros (items & [= <-] & Hbase & t & Ht & Hne).
    split; [now apply In_JStr|]. exists t. split; [now apply In_JStr | exact Hne].
  - intros (Hbase & t & Ht & Hne).
    exists (map JStr credentialTypes). split; [reflexivity|].
    split; [now apply In_JStr|]. exists t. split; [now apply In_JStr | exact Hne].
Qed.

Lemma issueCredential_type_passthrough_witness :
  exists call,
    issueCredential Sample.readKeys "did:web:example.com" "keys.json"
      ["VerifiableCredential"; "MetallurgicalCertificationCredential"] [] Sample.noDates =
    inr call
    /\ typeArray (sign_payload call) =
       Some [JStr "VerifiableCredential"; JStr "MetallurgicalCertificationCredential"].
Proof.
  eexists. split; [reflexivity|].
  apply (issueCredential_type_passthrough Sample.readKeys "did:web:example.com" "keys.json"
           ["VerifiableCredential"; "MetallurgicalCertificationCredential"] []
           Sample.noDates).
  reflexivity.
Defined.

(** C8, as stated, does not hold: a caller that passes the single type
    [MetallurgicalCertificationCredential] gets a credential without the
    base type. *)
Lemma issueCredential_type_counterexample :
  ~ (forall (readKeys : string -> option PrivateKeys) (issuerDid privateKeyPath : string)
            (credentialTypes : list string) (credentialSubjectData : JsonObject)
            (options : IssueOptions) (call : SignCall),
       issueCredential readKeys issuerDid privateKeyPath credentialTypes
         credentialSubjectData options = inr call ->
       hasBaseAndSpecificType (sign_payload call)).
Proof.
  intros Hclaim.
  destruct (Hclaim Sample.readKeys "did:web:example.com" "keys.json"
              ["MetallurgicalCertificationCredential"] [] Sample.noDates _ eq_refl)
    as (items & Hitems & Hbase & _).
  cbn in Hitems. injection Hitems as <-.
  destruct Hbase as [Hbase | []]. discriminate Hbase.
Qed.



(** ** Validity window *)

Lemma newDate_valid (ms : Z) :
  Z.abs ms <= 8640000000000000 -> newDate ms = Some ms.
Proof. intros H. unfold newDate. now rewrite (proj2 (Z.leb_le _ _) H). Qed.

(** A credential with a non-zero [exp] before the clock is rejected. *)
Lemma expired_rejected (e : Z) (n : option Z) (nowExp nowNbf : Z) :
  e <> 0 -> Z.abs (e * 1000) <= 8640000000000000 -> e * 1000 < nowExp ->
  checkValidityWindow {| exp := Some e; nbf := n |} nowExp nowNbf =
  Exit 1 "Credential expired".
Proof.
  intros Hnz Hrange Hpast. unfold checkValidityWindow. cbn [exp nbf claim_truthy].
  rewrite (proj2 (Z.eqb_neq _ _) Hnz), (newDate_valid _ Hrange). cbn.
  now rewrite (proj2 (Z.ltb_lt _ _) Hpast).
Qed.

(** In particular one that expired a second ago. *)
Lemma expired_one_second_ago (n : option Z) (nowMs : Z) :
  1000 <= nowMs <= 8640000000000000 -> epochSeconds nowMs <> 1 ->
  checkValidityWindow {| exp := Some (epochSeconds nowMs - 1); nbf := n |} nowMs nowMs =
  Exit 1 "Credential expired".
Proof.
  intros Hnow Hne. unfold epochSeconds in *.
  pose proof (Z.mul_div_le nowMs 1000 eq_refl) as Hle.
  assert (1 <= nowMs / 1000) by (apply Z.div_le_lower_bound; lia).
  apply expired_rejected; lia.
Qed.

(** A credential with a non-zero [nbf] after the clock is rejected. *)
Lemma not_yet_valid_rejected (e : option Z) (n : Z) (nowExp nowNbf : Z) :
  n <> 0 -> Z.abs (n * 1000) <= 8640000000000000 -> nowNbf < n * 1000 ->
  exists reason,
    checkValidityWindow {| exp := e; nbf := Some n |} nowExp nowNbf = Exit 1 reason.
Proof.
  intros Hnz Hrange Hfuture. unfold checkValidityWindow. cbn [exp nbf claim_truthy].
  match goal with
  | |- context [if ?expired then Exit 1 "Credential expired" else _] => destruct expired
  end; [eexists; reflexivity|].
  rewrite (proj2 (Z.eqb_neq _ _) Hnz), (newDate_valid _ Hrange). cbn.
  rewrite (proj2 (Z.ltb_lt _ _) Hfuture). eexists; reflexivity.
Qed.

(** A credential that expires in an hour passes the expiration check. *)
Lemma expires_in_an_hour_passes (nowMs nowNbf : Z) :
  checkValidityWindow {| exp := Some (epochSeconds nowMs + 3600); nbf := None |}
    nowMs nowNbf = Validated.
Proof.
  unfold checkValidityWindow, epochSeconds, newDate, date_lt. cbn [exp nbf claim_truthy].
  pose proof (Z.mul_succ_div_gt nowMs 1000 eq_refl) as Hgt.
  destruct (negb (nowMs / 1000 + 3600 =? 0)); [|reflexivity].
  destruct (Z.abs ((nowMs / 1000 + 3600) * 1000) <=? 8640000000000000); [|reflexivity].
  replace ((nowMs / 1000 + 3600) * 1000 <? nowMs) with false; [reflexivity|].
  symmetry. apply Z.ltb_ge. lia.
Qed.

(** C9, on the code: a credential whose [exp] is 0, the first second of
    1970, is not rejected at any time: [if (credential.exp)] takes the
    number 0 for a missing claim and skips the expiration check. *)
Theorem exp_zero_is_not_rejected (nowExp nowNbf : Z) :
  validateCredential (inr {| exp := Some 0; nbf := None |}) nowExp nowNbf = Validated.
Proof. reflexivity. Qed.

(** So is a credential whose [exp] is so far in the past that its date
    is invalid: every comparison with an invalid date is false. *)
Lemma exp_out_of_range_is_not_rejected (nowExp nowNbf : Z) :
  validateCredential (inr {| exp := Some (-8640000000001); nbf := None |}) nowExp nowNbf =
  Validated.
Proof. reflexivity. Qed.

(** * Further properties of the resolver *)

Lemma includes_In (arr : option (list string)) (x : string) :
  includes arr x = true <-> exists l, arr = Some l /\ In x l.
Proof.
  destruct arr as [l|]; simpl.
  - rewrite existsb_exists. split.
    + intros (y & Hy & Heq). apply String.eqb_eq in Heq as ->. eauto.
    + intros (l' & [= <-] & Hx). exists x. split; [exact Hx | apply String.eqb_refl].
  - split; [discriminate | intros (l & Hl & _); discriminate].
Qed.

Lemma role_keys_In (role : option (list string)) (vms : list VerificationMethod)
    (id : string) (key : PublicKey) :
  In (id, key)
     (flat_map (fun vm => if includes role (vm_id vm)
                          then [(vm_id vm, publicKeyJwk vm)] else []) vms)
  <-> (exists vm, In vm vms /\ vm_id vm = id /\ publicKeyJwk vm = key)
      /\ exists l, role = Some l /\ In id l.
Proof.
  rewrite in_flat_map. split.
  - intros (vm & Hvm & Hin). destruct (includes role (vm_id vm)) eqn:Hinc; [|destruct Hin].
    destruct Hin as [[= <- <-]|[]]. split; [eauto|]. now apply includes_In.
  - intros ((vm & Hvm & <- & <-) & Hrole). exists vm. split; [exact Hvm|].
    rewrite (proj2 (includes_In role (vm_id vm)) Hrole). now left.
Qed.

(** The key set of a role holds exactly the verification methods of the
    document whose id is listed under that role, each with its own key:
    a listed id without verification method contributes nothing, and a
    method listed under both roles is in both sets. *)
Theorem partitionKeys_membership (controller : Controller) (id : string) (key : PublicKey) :
  (In (id, key) (assertion (partitionKeys controller)) <->
   (exists vms vm, verificationMethod controller = Some vms /\ In vm vms
                   /\ vm_id vm = id /\ publicKeyJwk vm = key)
   /\ exists l, assertionMethod controller = Some l /\ In id l)
  /\
  (In (id, key) (authentication_keys (partitionKeys controller)) <->
   (exists vms vm, verificationMethod controller = Some vms /\ In vm vms
                   /\ vm_id vm = id /\ publicKeyJwk vm = key)
   /\ exists l, authentication controller = Some l /\ In id l).
Proof.
  unfold partitionKeys. cbn [assertion authentication_keys].
  split; rewrite role_keys_In; (split; intros [Hvm Hrole]; (split; [|exact Hrole])).
  - destruct Hvm as (vm & Hin & Hid & Hkey).
    destruct (verificationMethod controller) as [vms|]; [|destruct Hin]. eauto 6.
  - destruct Hvm as (vms & vm & -> & Hin & Hid & Hkey). eauto.
  - destruct Hvm as (vm & Hin & Hid & Hkey).
    destruct (verificationMethod controller) as [vms|]; [|destruct Hin]. eauto 6.
  - destruct Hvm as (vms & vm & -> & Hin & Hid & Hkey). eauto.
Qed.

(** Whatever the store held, a document added under an identifier is what
    [resolveController] answers for that identifier, without a request to
    the network and without a change of the resolver. *)
Theorem addController_then_resolve {Ajv ValidateFunction : Type}
    (st : Resolver Ajv ValidateFunction) (net : Network) (id : string)
    (controller : Controller) :
  resolveController net id (addController id controller st) =
  (inr (partitionKeys controller), addController id controller st, []).
Proof.
  unfold resolveController.
  assert (Hl : controllerLookup (addController id controller st) !! id =
               Some (ControllerDoc controller)) by (cbn; apply lookup_insert_eq).
  rewrite Hl. reflexivity.
Qed.

Lemma fold_insert_other {V W : Type} (f : V -> W) (l : list (string * V))
    (id : string) (m : gmap string W) :
  Forall (fun p => fst p <> id) l ->
  fold_left (fun m p => <[fst p := f (snd p)]> m) l m !! id = m !! id.
Proof.
  intros Hl. revert m. induction Hl as [|p l Hp _ IH]; intros m; [reflexivity|].
  cbn [fold_left]. rewrite IH. now rewrite lookup_insert_ne.
Qed.

Lemma fold_insert_last {V W : Type} (f : V -> W) (l1 l2 : list (string * V))
    (id : string) (v : V) (m : gmap string W) :
  Forall (fun p => fst p <> id) l2 ->
  fold_left (fun m p => <[fst p := f (snd p)]> m) (l1 ++ (id, v) :: l2) m !! id =
  Some (f v).
Proof.
  intros Hl2. rewrite fold_left_app. cbn [fold_left fst snd].
  rewrite (fold_insert_other f l2 id _ Hl2). apply lookup_insert_eq.
Qed.

(** A resolver created with a list of controllers answers for an
    identifier with the last document the list gives for it, locally. *)
Theorem createGenericResolver_last_wins {Ajv : Type} (ValidateFunction : Type)
    (ajv_new : Ajv) (before after : list (string * Controller))
    (schemas : list (string * Schema)) (net : Network) (id : string)
    (controller : Controller) :
  Forall (fun p => fst p <> id) after ->
  let st := createGenericResolver ValidateFunction ajv_new
              (before ++ (id, controller) :: after) schemas in
  resolveController net id st = (inr (partitionKeys controller), st, []).
Proof.
  intros Hafter st. unfold resolveController.
  assert (Hl : controllerLookup st !! id = Some (ControllerDoc controller)).
  { unfold st, createGenericResolver. cbn [controllerLookup].
    now apply (fold_insert_last ControllerDoc). }
  rewrite Hl. reflexivity.
Qed.

Lemma createGenericResolver_last_wins_witness :
  resolveController Sample.offline "did:web:example.com"
    (createGenericResolver Schema O
       [("did:web:example.com",
         {| ctrl_id := "did:web:example.com"; verificationMethod := None;
            assertionMethod := None; authentication := None |});
        ("did:web:example.com", Sample.doc);
        ("did:web:other.example", Sample.doc)] []) =
  (inr (partitionKeys Sample.doc),
   createGenericResolver Schema O
       [("did:web:example.com",
         {| ctrl_id := "did:web:example.com"; verificationMethod := None;
            assertionMethod := None; authentication := None |});
        ("did:web:example.com", Sample.doc);
        ("did:web:other.example", Sample.doc)] [],
   []).
Proof.
  apply (createGenericResolver_last_wins Schema O
           [("did:web:example.com",
             {| ctrl_id := "did:web:example.com"; verificationMethod := None;
                assertionMethod := None; authentication := None |})]
           [("did:web:other.example", Sample.doc)] [] Sample.offline
           "did:web:example.com" Sample.doc).
  repeat constructor. discriminate.
Defined.

(** An identifier that is not stored, that the store does not inherit
    and that does not start with [did:web:] is not looked for on the
    network: the call fails at once and the resolver stays as it is. *)
Theorem resolveController_other_method {Ajv ValidateFunction : Type}
    (st : Resolver Ajv ValidateFunction) (net : Network) (id : string) :
  ownKey id = true ->
  plainObject (controllerLookup st) ->
  controllerLookup st !! id = None ->
  startsWith id "did:web:" = false ->
  resolveController net id st =
  (inl (Err ControllerNotFoundError ("Controller not found for id: " ++ id)), st, []).
Proof.
  intros _ _ Hno Hweb. unfold resolveController. rewrite Hno. cbn [truthyController].
  rewrite Hweb. reflexivity.
Qed.

Lemma resolveController_other_method_witness :
  resolveController Sample.online "did:key:z6Mk#z6Mk" Sample.empty =
  (inl (Err ControllerNotFoundError "Controller not found for id: did:key:z6Mk#z6Mk"),
   Sample.empty, []).
Proof.
  apply (resolveController_other_method Sample.empty Sample.online "did:key:z6Mk#z6Mk");
    reflexivity.
Defined.

(** A bare DID, without fragment, is served from the store once it was
    fetched: the second call issues no request, whatever the network has
    become, and returns the same keys. *)
Theorem resolveController_bare_did_cached {Ajv ValidateFunction : Type}
    (st : Resolver Ajv ValidateFunction) (net later : Network) (did : string)
    (c : Controller) :
  controllerLookup st !! did = None ->
  startsWith did "did:web:" = true ->
  contains "#" did = false ->
  net (didUrl did) = Response true (Some (ControllerDoc c)) ->
  let st' := snd (fst (resolveController net did st)) in
  resolveController net did st = (inr (partitionKeys c), st', [didUrl did])
  /\ resolveController later did st' = (inr (partitionKeys c), st', []).
Proof.
  intros Hno Hweb Hfrag Hnet.
  assert (Hhd : hd EmptyString (split "#" did) = did) by now rewrite split_none.
  assert (Hdid : JsString.truthy did = true).
  { destruct (prefix_cons_inv _ _ _ Hweb) as [s' ->]. reflexivity. }
  assert (Hfirst : resolveController net did st =
    (inr (partitionKeys c),
     set_controllerLookup (fun m => <[did := ControllerDoc c]> m) st, [didUrl did])).
  { unfold resolveController. rewrite Hno. cbn [truthyController].
    rewrite Hweb, Hhd, Hdid, Hnet. reflexivity. }
  rewrite Hfirst. cbn [fst snd]. split; [reflexivity|].
  unfold resolveController.
  assert (Hl : controllerLookup (set_controllerLookup
                 (fun m => <[did := ControllerDoc c]> m) st) !! did =
               Some (ControllerDoc c)) by (cbn; apply lookup_insert_eq).
  rewrite Hl. reflexivity.
Qed.

Lemma resolveController_bare_did_cached_witness :
  resolveController Sample.offline "did:web:example.com"
    (snd (fst (resolveController Sample.online "did:web:example.com" Sample.empty))) =
  (inr (partitionKeys Sample.doc),
   snd (fst (resolveController Sample.online "did:web:example.com" Sample.empty)), []).
Proof.
  apply (proj2 (resolveController_bare_did_cached Sample.empty Sample.online
                  Sample.offline "did:web:example.com" Sample.doc
                  eq_refl eq_refl eq_refl eq_refl)).
Defined.

(** A response with a success status whose body is a falsy JSON value
    ([null], [false], [0], an empty string) makes the call fail like a
    missing document, but the value is written into the store under the
    DID. *)
Theorem resolveController_falsy_body {Ajv ValidateFunction : Type}
    (st : Resolver Ajv ValidateFunction) (net : Network) (id : string) :
  controllerLookup st !! id = None ->
  startsWith id "did:web:" = true ->
  net (didUrl (hd EmptyString (split "#" id))) = Response true (Some FalsyValue) ->
  fst (fst (resolveController net id st)) =
    inl (Err ControllerNotFoundError ("Controller not found for id: " ++ id))
  /\ controllerLookup (snd (fst (resolveController net id st)))
       !! hd EmptyString (split "#" id) = Some FalsyValue.
Proof.
  intros Hno Hweb Hnet.
  assert (Hdid : JsString.truthy (hd EmptyString (split "#" id)) = true).
  { destruct (prefix_cons_inv _ _ _ Hweb) as [s' ->]. simpl.
    destruct (split_cons "#" s') as [h [t ->]]. reflexivity. }
  unfold resolveController. rewrite Hno. cbn [truthyController].
  rewrite Hweb, Hdid, Hnet. cbn. split; [reflexivity | apply lookup_insert_eq].
Qed.

Lemma resolveController_falsy_body_witness :
  controllerLookup
    (snd (fst (resolveController (fun _ => Response true (Some FalsyValue))
                 "did:web:example.com#key-1" Sample.empty)))
    !! "did:web:example.com" = Some FalsyValue.
Proof.
  apply (proj2 (resolveController_falsy_body Sample.empty
                  (fun _ => Response true (Some FalsyValue))
                  "did:web:example.com#key-1" eq_refl eq_refl eq_refl)).
Defined.

(** [resolveController] writes at most one slot of the controller store,
    the one of the DID of the identifier, and nothing else of the
    resolver. *)
Theorem resolveController_frame {Ajv ValidateFunction : Type}
    (st : Resolver Ajv ValidateFunction) (net : Network) (id : string) :
  let st' := snd (fst (resolveController net id st)) in
  (forall k, k <> hd EmptyString (split "#" id) ->
             controllerLookup st' !! k = controllerLookup st !! k)
  /\ schemaLookup st' = schemaLookup st
  /\ compiledSchemaCache st' = compiledSchemaCache st
  /\ ajv st' = ajv st
  /\ compileCalls st' = compileCalls st.
Proof.
  unfold resolveController.
  destruct (truthyController (controllerLookup st !! id)) as [c|] eqn:Hc.
  - rewrite Hc. cbn. auto.
  - destruct (startsWith id "did:web:"); [|rewrite Hc; cbn; auto].
    destruct (JsString.truthy _); [|rewrite Hc; cbn; auto].
    destruct (net _) as [|[] [[|c]|]]; cbn; rewrite ?Hc; cbn;
      repeat split; auto; intros k Hk; now rewrite lookup_insert_ne.
Qed.

Section FurtherSchemaProperties.

Context {Ajv ValidateFunction : Type}.
Variable ajv_new : Ajv.
Variable ajv_compile : Ajv -> Schema -> option ValidateFunction * Ajv.

Local Abbreviation State := (Resolver Ajv ValidateFunction).


(** A schema the compiler rejects is not remembered as such: the call
    fails, the cache gets no entry, and the next call for the id runs the
    compiler again. The identifier is none that the cache inherits. *)
Theorem resolveSchema_failure_not_cached (st : State) (id : string) (schema : Schema)
    (ajv' : Ajv) :
  ownKey id = true ->
  plainObject (compiledSchemaCache st) ->
  compiledSchemaCache st !! id = None ->
  schemaLookup st !! id = Some schema ->
  schema_truthy schema = true ->
  ajv_compile (ajv st) schema = (None, ajv') ->
  let st' := snd (resolveSchema ajv_compile id st) in
  (exists e, fst (resolveSchema ajv_compile id st) = inl e /\ kind e = SchemaCompileError)
  /\ compiledSchemaCache st' !! id = None
  /\ compileCalls st' = S (compileCalls st)
  /\ compileCalls (snd (resolveSchema ajv_compile id st')) = S (S (compileCalls st)).
Proof.
  intros _ _ Hmiss Hs Ht Hcomp.
  assert (Hfirst : resolveSchema ajv_compile id st =
    (inl (Err SchemaCompileError "schema is invalid"),
     {| controllerLookup := controllerLookup st;
        schemaLookup := schemaLookup st;
        compiledSchemaCache := compiledSchemaCache st;
        ajv := ajv';
        compileCalls := S (compileCalls st) |})).
  { rewrite resolveSchema_uncached by exact Hmiss. now rewrite Hs, Ht, Hcomp. }
  rewrite Hfirst. cbn [fst snd]. split; [eauto|]. split; [exact Hmiss|].
  split; [reflexivity|].
  rewrite resolveSchema_uncached by exact Hmiss. cbn [schemaLookup ajv compileCalls].
  rewrite Hs, Ht. destruct (ajv_compile ajv' schema) as [[w|] a]; reflexivity.
Qed.

(** Schema ids do not interfere: registering a schema under one id, or
    resolving it, leaves the validator cached for another id in place,
    and that validator is still returned without compiling. *)
Theorem schema_ids_independent (st : State) (id other : string) (schema : Schema)
    (v : ValidateFunction) :
  id <> other ->
  compiledSchemaCache st !! other = Some v ->
  resolveSchema ajv_compile other (addSchema id schema st) =
    (inr v, addSchema id schema st)
  /\ resolveSchema ajv_compile other (snd (resolveSchema ajv_compile id st)) =
     (inr v, snd (resolveSchema ajv_compile id st)).
Proof.
  intros Hne Hv. split; apply resolveSchema_hit.
  - cbn. now rewrite lookup_delete_ne.
  - unfold resolveSchema.
    destruct (compiledSchemaCache st !! id) as [cached|]; [exact Hv|].
    destruct (schemaLookup st !! id) as [s|]; [|exact Hv].
    destruct (schema_truthy s); [|exact Hv].
    destruct (ajv_compile (ajv st) s) as [[w|] a]; cbn; [|exact Hv].
    now rewrite lookup_insert_ne.
Qed.

End FurtherSchemaProperties.


Lemma resolveSchema_failure_not_cached_witness :
  let rejecting := fun (n : nat) (s : Schema) => (@None Schema, S n) in
  let st := addSchema "urn:a" (SchemaObject "{type: 7}") Sample.empty in
  compiledSchemaCache (snd (resolveSchema rejecting "urn:a" st)) !! "urn:a" = None
  /\ compileCalls (snd (resolveSchema rejecting "urn:a"
                          (snd (resolveSchema rejecting "urn:a" st)))) = 2%nat.
Proof.
  cbv zeta.
  destruct (resolveSchema_failure_not_cached
              (fun (n : nat) (s : Schema) => (@None Schema, S n))
              (addSchema "urn:a" (SchemaObject "{type: 7}") Sample.empty)
              "urn:a" (SchemaObject "{type: 7}") 1%nat
              eq_refl eq_refl eq_refl eq_refl eq_refl eq_refl)
    as (_ & Hcache & _ & Hcalls).
  split; [exact Hcache | exact Hcalls].
Defined.

Lemma schema_ids_independent_witness :
  let st := snd (resolveSchema Sample.compile "urn:b"
                   (addSchema "urn:b" (SchemaObject "{}") Sample.empty)) in
  resolveSchema Sample.compile "urn:b" (addSchema "urn:a" (SchemaBool true) st) =
  (inr (SchemaObject "{}"), addSchema "urn:a" (SchemaBool true) st).
Proof.
  cbv zeta.
  apply (proj1 (schema_ids_independent Sample.compile
                  (snd (resolveSchema Sample.compile "urn:b"
                          (addSchema "urn:b" (SchemaObject "{}") Sample.empty)))
                  "urn:a" "urn:b" (SchemaBool true) (SchemaObject "{}")
                  ltac:(discriminate) eq_refl)).
Defined.

(** * Further properties of the verifier *)

(** The issuer tests of the verifier refuse a payload in exactly two
    cases, each time with [MissingIssuerError]: the issuer is missing or
    falsy (null, false, zero, the empty string), or it is not a string
    and has no truthy [id]. Every other payload passes both tests. *)
Theorem issuerDidOf_refuses (credential : JsonObject) :
  ((exists e, issuerDidOf credential = inl e) <->
   js_truthy (member "issuer" credential) = false
   \/ exists v, member "issuer" credential = Some v
                /\ (forall s, v <> JStr s)
                /\ js_truthy (property "id" v) = false)
  /\ forall e, issuerDidOf credential = inl e -> kind e = MissingIssuerError.
Proof.
  unfold issuerDidOf.
  destruct (member "issuer" credential) as [v|].
  2:{ cbn. split; [split; [now left | eauto]|]. now intros e [= <-]. }
  destruct (js_truthy (Some v)) eqn:Hv; cbn [negb].
  2:{ split; [split; [now left | eauto]|]. now intros e [= <-]. }
  assert (Hcase : (exists s, v = JStr s) \/ (forall s, v <> JStr s)).
  { destruct v; try (right; discriminate). left; eauto. }
  destruct Hcase as [[s ->] | Hns].
  - rewrite Hv. split; [split|].
    + intros [e He]. discriminate He.
    + intros [Hf | (w & [= <-] & Hw & _)]; [discriminate Hf|]. now destruct (Hw s).
    + intros e He. discriminate He.
  - assert (Hid : match v with JStr s => Some (JStr s) | _ => property "id" v end
                  = property "id" v).
    { destruct v; try reflexivity. now destruct (Hns s). }
    rewrite Hid. clear Hid.
    destruct (property "id" v) as [w|] eqn:Hw.
    + destruct (js_truthy (Some w)) eqn:Ht.
      * split; [split|].
        -- intros [e He]. discriminate He.
        -- intros [Hf | (u & [= <-] & _ & Hu)]; [discriminate Hf|]. congruence.
        -- intros e He. discriminate He.
      * split; [split|].
        -- intros _. right. exists v. rewrite Hw. auto.
        -- eauto.
        -- now intros e [= <-].
    + split; [split|].
      * intros _. right. exists v. rewrite Hw. auto.
      * eauto.
      * now intros e [= <-].
Qed.

Lemma issuerDidOf_refuses_witness :
  exists e, issuerDidOf [("issuer", JObj [("id", JNum 0)])] = inl e.
Proof.
  apply (proj1 (issuerDidOf_refuses [("issuer", JObj [("id", JNum 0)])])).
  right. exists (JObj [("id", JNum 0)]).
  split; [reflexivity|]. split; [discriminate|reflexivity].
Defined.

Lemma resolveKey_In (keys : list (string * PublicKey)) (keyId : string) (key : PublicKey) :
  resolveKey keys keyId = inr key -> In (keyId, key) keys.
Proof.
  induction keys as [|[id k] keys IH]; simpl; [discriminate|].
  destruct (String.eqb id keyId) eqn:Heq.
  - intros [= <-]. apply String.eqb_eq in Heq as ->. now left.
  - intros H. right. now apply IH.
Qed.

Section FurtherVerifierProperties.

Context {Ajv ValidateFunction : Type}.
Variable parseJWS : string -> string + (JwsHeader * JsonObject).
Variable signatureValid : PublicKey -> string -> bool.
Variable validateCredentialSchemas :
  JsonObject -> Resolver Ajv ValidateFunction ->
  option Error * Resolver Ajv ValidateFunction.

Local Abbreviation State := (Resolver Ajv ValidateFunction).
Local Abbreviation run net jws validateSchema st :=
  (verify parseJWS signatureValid validateCredentialSchemas net jws validateSchema st).

(** After the binding check the first thing the verifier does is resolve
    the controller of the key, with the requests this takes. *)
Lemma verify_events (net : Network) (jws : string) (validateSchema : bool) (st : State)
    (header : JwsHeader) (credential : JsonObject) (d : string) :
  parseJWS jws = inr (header, credential) ->
  issuerDidOf credential = inr d ->
  startsWith (kid header) d = true ->
  exists rest,
    snd (run net jws validateSchema st) =
    ResolveControllerEvent (kid header)
      :: (map FetchEvent (snd (resolveController net (kid header) st)) ++ rest)%list.
Proof.
  intros Hparse Hissuer Hbind. unfold verify. rewrite Hparse, Hissuer, Hbind. cbn [negb].
  destruct (resolveController net (kid header) st) as [[[e|keys] st1] fetched];
    cbn [fst snd].
  { exists []. now rewrite app_nil_r. }
  destruct (resolveKey (assertion keys) (kid header)) as [e|key]; cbn [snd].
  { eexists. reflexivity. }
  destruct (verifierVerify parseJWS signatureValid (kid header) key jws) as [e|payload];
    cbn [snd].
  { eexists. rewrite <- app_assoc. reflexivity. }
  destruct validateSchema.
  - destruct (validateCredentialSchemas payload st1) as [[e|] st2]; cbn [snd];
      eexists; rewrite <- !app_assoc; reflexivity.
  - cbn [snd]. eexists. rewrite <- app_assoc. reflexivity.
Qed.

(** The binding check compares strings and nothing else. A key identifier
    that continues the issuer DID [did:web:<domain>] with more characters
    before the fragment passes it, and the controller document is then
    requested from the host the key identifier names, [<domain><suffix>],
    not from the issuer's domain. *)
Theorem binding_check_is_a_prefix_check (net : Network) (jws : string)
    (validateSchema : bool) (st : State) (header : JwsHeader) (credential : JsonObject)
    (domain suffix frag : string) :
  parseJWS jws = inr (header, credential) ->
  hasIssuerDid credential ("did:web:" ++ domain) ->
  kid header = "did:web:" ++ domain ++ suffix ++ "#" ++ frag ->
  isSegment (domain ++ suffix) = true ->
  controllerLookup st !! kid header = None ->
  exists rest,
    snd (run net jws validateSchema st) =
    ResolveControllerEvent (kid header)
      :: FetchEvent ("https://" ++ domain ++ suffix ++ "/.well-known/did.json")
      :: rest.
Proof.
  intros Hparse Hissuer Hkid Hseg Hno.
  assert (Hshape : kid header =
            ("did:web:" ++ join ":" [domain ++ suffix]) ++ "#" ++ frag).
  { rewrite Hkid. cbn [join]. now rewrite !append_assoc. }
  assert (Hall : forallb isSegment [domain ++ suffix] = true)
    by (cbn; now rewrite Hseg).
  destruct (verify_events net jws validateSchema st header credential
              ("did:web:" ++ domain)) as [rest Hrest].
  - exact Hparse.
  - apply issuerDidOf_present; [discriminate | exact Hissuer].
  - rewrite Hkid, <- append_assoc. apply startsWith_app.
  - rewrite Hrest, resolveController_fetched.
    + assert (Hurl : didUrl (hd EmptyString (split "#" (kid header))) =
                       "https://" ++ domain ++ suffix ++ "/.well-known/did.json").
      { rewrite Hshape, did_of_keyId by exact Hall.
        rewrite didUrl_segments by exact Hall. now rewrite append_assoc. }
      rewrite Hurl. cbn [map app]. eauto.
    + now rewrite Hno.
    + rewrite Hshape, append_assoc. apply startsWith_app.
Qed.

(** A payload is returned only when every step passed: the object parsed,
    the issuer was present, the key identifier starts with the issuer
    DID, a controller document was resolved for it, the key identifier is
    among the assertion keys of that document, and the signature checks
    against the key found there. The payload returned is the parsed one. *)
Theorem verify_returns_only_verified (net : Network) (jws : string)
    (validateSchema : bool) (st st' : State) (payload : JsonObject)
    (events : list Event) :
  run net jws validateSchema st = (inr payload, st', events) ->
  exists header d keys key,
    parseJWS jws = inr (header, payload)
    /\ issuerDidOf payload = inr d
    /\ startsWith (kid header) d = true
    /\ fst (fst (resolveController net (kid header) st)) = inr keys
    /\ In (kid header, key) (assertion keys)
    /\ signatureValid key jws = true.
Proof.
  unfold verify.
  destruct (parseJWS jws) as [msg|[header credential]] eqn:Hparse; [discriminate|].
  destruct (issuerDidOf credential) as [e|d] eqn:Hissuer; [discriminate|].
  destruct (startsWith (kid header) d) eqn:Hbind; cbn [negb]; [|discriminate].
  destruct (resolveController net (kid header) st) as [[[e|keys] st1] fetched]
    eqn:Hres; [discriminate|].
  destruct (resolveKey (assertion keys) (kid header)) as [e|key] eqn:Hkey;
    [discriminate|].
  unfold verifierVerify. rewrite Hparse.
  destruct (negb (String.eqb (kid header) (kid header))); [discriminate|].
  destruct (signatureValid key jws) eqn:Hsig; [|discriminate].
  intros H.
  assert (Hsame : payload = credential).
  { destruct validateSchema.
    - destruct (validateCredentialSchemas credential st1) as [[e|] st2];
        [discriminate H|]. now injection H.
    - now injection H. }
  subst payload. exists header, d, keys, key.
  repeat split; auto.
  - now rewrite Hres.
  - now apply resolveKey_In.
Qed.

End FurtherVerifierProperties.

Lemma binding_check_is_a_prefix_check_witness :
  exists rest,
    snd (verify (fun _ => inr ({| alg := ES256; kid := "did:web:a.com.evil.example#key-1" |},
                               [("issuer", JStr "did:web:a.com")]))
           Sample.anySignature Sample.noSchemas Sample.online "jws" false Sample.empty) =
    ResolveControllerEvent "did:web:a.com.evil.example#key-1"
      :: FetchEvent "https://a.com.evil.example/.well-known/did.json" :: rest.
Proof.
  apply (binding_check_is_a_prefix_check
           (fun _ => inr ({| alg := ES256; kid := "did:web:a.com.evil.example#key-1" |},
                          [("issuer", JStr "did:web:a.com")]))
           Sample.anySignature Sample.noSchemas Sample.online "jws" false Sample.empty
           {| alg := ES256; kid := "did:web:a.com.evil.example#key-1" |}
           [("issuer", JStr "did:web:a.com")] "a.com" ".evil.example" "key-1").
  - reflexivity.
  - left. reflexivity.
  - reflexivity.
  - reflexivity.
  - reflexivity.
Defined.

Lemma verify_returns_only_verified_witness :
  exists header d keys key,
    Sample.parse "genuine" =
      inr (header, [("issuer", JObj [("id", JStr "did:web:example.com")])])
    /\ issuerDidOf [("issuer", JObj [("id", JStr "did:web:example.com")])] = inr d
    /\ startsWith (kid header) d = true
    /\ fst (fst (resolveController Sample.online (kid header) Sample.empty)) = inr keys
    /\ In (kid header, key) (assertion keys)
    /\ Sample.anySignature key "genuine" = true.
Proof.
  apply (verify_returns_only_verified Sample.parse Sample.anySignature Sample.noSchemas
           Sample.online "genuine" false Sample.empty
           (snd (fst (verify Sample.parse Sample.anySignature Sample.noSchemas
                        Sample.online "genuine" false Sample.empty)))
           [("issuer", JObj [("id", JStr "did:web:example.com")])]
           (snd (verify Sample.parse Sample.anySignature Sample.noSchemas
                   Sample.online "genuine" false Sample.empty))).
  reflexivity.
Defined.

(** * DID generation and the resolver *)

Lemma append_nil_r (s : string) : s ++ EmptyString = s.
Proof. induction s as [|c s IH]; [reflexivity|]. now rewrite append_cons, IH. Qed.

Lemma forallb_filter {A : Type} (p q : A -> bool) (l : list A) :
  forallb p l = true -> forallb p (List.filter q l) = true.
Proof.
  induction l as [|a l IH]; simpl; [reflexivity|].
  intros H. apply andb_true_iff in H as [Ha Hl].
  destruct (q a); simpl; [rewrite Ha|]; auto.
Qed.

(** The DID of [<domain>/<part1>/.../<partN>]: the parts become the path
    of the DID, and empty parts (doubled or trailing slashes) are dropped. *)
Lemma didId_parts (domain : string) (parts : list string) :
  forallb (fun s => negb (contains "/" s)) (domain :: parts) = true ->
  didId (join "/" (domain :: parts)) =
  "did:web:" ++ join ":"
    (domain :: List.filter (fun p => (0 <? String.length p)%nat) parts).
Proof.
  intros Hfree. unfold didId. rewrite (split_join "/" domain parts Hfree).
  cbn [hd tl].
  destruct (List.filter _ parts) as [|p ps].
  - cbn. now rewrite append_nil_r.
  - cbn [length Nat.ltb Nat.leb]. now rewrite join_cons2.
Qed.

(** The DID that [generateDid] builds for [<domain>/<part1>/.../<partN>]
    is resolved by [resolveController] at the URL that mirrors the input:
    [https://<domain>/<part1>/.../<partN>/did.json], or the well-known
    URL of the domain when there is no path. Empty parts of the input do
    not show in the URL. *)
Theorem generated_did_url (domain : string) (parts : list string) :
  forallb (fun s => negb (contains "/" s)) (domain :: parts) = true ->
  forallb isSegment (domain :: parts) = true ->
  didUrl (didId (join "/" (domain :: parts))) =
  match List.filter (fun p => (0 <? String.length p)%nat) parts with
  | [] => "https://" ++ domain ++ "/.well-known/did.json"
  | segs => "https://" ++ domain ++ "/" ++ join "/" segs ++ "/did.json"
  end.
Proof.
  intros Hfree Hseg. rewrite didId_parts by exact Hfree.
  rewrite didUrl_segments.
  - destruct (List.filter _ parts); reflexivity.
  - simpl in Hseg |- *. apply andb_true_iff in Hseg as [Hd Hp].
    rewrite Hd. now apply forallb_filter.
Qed.

Lemma generated_did_url_witness :
  didUrl (didId "contoso.com/organizations//123/") =
  "https://contoso.com/organizations/123/did.json".
Proof.
  apply (generated_did_url "contoso.com" ["organizations"; ""; "123"; ""]); reflexivity.
Defined.

(** A port in the input is not encoded: [generateDid] puts the colon into
    the DID as it is, and the resolver then reads the port as the first
    path segment of the URL. *)
Theorem generated_did_with_port (host port : string) :
  isSegment host = true -> isSegment port = true ->
  contains "/" host = false -> contains "/" port = false ->
  didId (host ++ ":" ++ port) = "did:web:" ++ host ++ ":" ++ port
  /\ didUrl (didId (host ++ ":" ++ port)) =
     "https://" ++ host ++ "/" ++ port ++ "/did.json".
Proof.
  intros Hh Hp Hsh Hsp.
  assert (Hid : didId (host ++ ":" ++ port) = "did:web:" ++ host ++ ":" ++ port).
  { unfold didId. rewrite split_none.
    - cbn. now rewrite append_nil_r.
    - rewrite !contains_app, Hsh, Hsp. reflexivity. }
  split; [exact Hid|]. rewrite Hid.
  change (host ++ ":" ++ port) with (join ":" [host; port]).
  rewrite didUrl_segments; [reflexivity|].
  simpl. now rewrite Hh, Hp.
Qed.

Lemma generated_did_with_port_witness :
  didUrl (didId "localhost:3000") = "https://localhost/3000/did.json".
Proof.
  apply (proj2 (generated_did_with_port "localhost" "3000"
                  eq_refl eq_refl eq_refl eq_refl)).
Defined.

(** A credential issued for the generated DID with the generated
    assertion key is signed under the key identifier that the generated
    DID document lists as its assertion method, which is the id of the
    first verification method of the document. *)
Theorem generated_document_lists_issuing_key (readKeys : string -> option PrivateKeys)
    (domainInput keyPath : string) (credentialTypes : list string)
    (credentialSubjectData : JsonObject) (options : IssueOptions) (call : SignCall)
    (assertionPublicKey authenticationPublicKey : PublicJwk) (lei : option string) :
  issueCredential readKeys (didId domainInput) keyPath credentialTypes
    credentialSubjectData options = inr call ->
  jwk_kid assertionPublicKey = sk_kid (sign_key call) ->
  let document := didDocument domainInput assertionPublicKey authenticationPublicKey lei in
  member "assertionMethod" document = Some (JArr [JStr (opt_kid (sign_options call))])
  /\ exists first second,
       member "verificationMethod" document = Some (JArr [first; second])
       /\ property "id" first = Some (JStr (opt_kid (sign_options call)))
       /\ property "controller" first = Some (JStr (didId domainInput)).
Proof.
  intros Hcall Hkid document.
  destruct (issueCredential_call _ _ _ _ _ _ _ Hcall) as (Hopt & _).
  rewrite Hopt, <- Hkid. unfold document, didDocument. split.
  - apply member_app_l. reflexivity.
  - eexists _, _. split; [apply member_app_l; reflexivity|]. split; reflexivity.
Qed.

Lemma generated_document_lists_issuing_key_witness :
  member "assertionMethod"
    (didDocument "example.com"
       {| jwk_kid := "key-1"; jwk_kty := "EC"; jwk_crv := "P-256"; jwk_alg := "ES256";
          jwk_x := "x1"; jwk_y := "y1" |}
       {| jwk_kid := "key-2"; jwk_kty := "EC"; jwk_crv := "P-256"; jwk_alg := "ES256";
          jwk_x := "x2"; jwk_y := "y2" |} None) =
  Some (JArr [JStr "did:web:example.com#key-1"]).
Proof.
  apply (generated_document_lists_issuing_key Sample.readKeys "example.com" "keys.json"
           ["VerifiableCredential"] [] Sample.noDates _
           {| jwk_kid := "key-1"; jwk_kty := "EC"; jwk_crv := "P-256"; jwk_alg := "ES256";
              jwk_x := "x1"; jwk_y := "y1" |}
           {| jwk_kid := "key-2"; jwk_kty := "EC"; jwk_crv := "P-256"; jwk_alg := "ES256";
              jwk_x := "x2"; jwk_y := "y2" |} None eq_refl eq_refl).
Defined.

(** * The [credential sign] command *)

Lemma member_keys (key : string) (obj : JsonObject) (v : JSON) :
  member key obj = Some v -> In key (map fst obj).
Proof.
  induction obj as [|[k w] obj IH]; simpl; [discriminate|].
  destruct (String.eqb k key) eqn:Heq.
  - intros _. left. now apply String.eqb_eq.
  - intros H. right. now apply IH.
Qed.

(** On arguments of the declared types [issueVC] is [issueCredential]. *)
Lemma issueVC_typed (readKeys : string -> option PrivateKeys) (d keyPath : string)
    (credentialTypes : list string) (credentialSubjectData : JsonObject)
    (options : IssueOptions) :
  issueVC readKeys (JStr d) keyPath (JArr (map JStr credentialTypes))
    (JObj credentialSubjectData)
    (JStr <$> validFrom options) (JStr <$> validUntil options) =
  issueCredential readKeys d keyPath credentialTypes credentialSubjectData options.
Proof.
  unfold issueVC, issueCredential, optionalMember.
  destruct (readKeys keyPath) as [keys|]; [|reflexivity].
  destruct (assertionKey keys) as [key|]; [|reflexivity].
  destruct (validFrom options) as [vf|], (validUntil options) as [vu|]; reflexivity.
Qed.

(** What [issueVC] hands to the signer. *)
Lemma issueVC_call (readKeys : string -> option PrivateKeys) (issuer : JSON)
    (keyPath : string) (credentialTypes credentialSubjectData : JSON)
    (validFromOption validUntilOption : option JSON) (call : SignCall) :
  issueVC readKeys issuer keyPath credentialTypes credentialSubjectData
    validFromOption validUntilOption = inr call ->
  opt_kid (sign_options call) = toString issuer ++ "#" ++ sk_kid (sign_key call)
  /\ opt_iat (sign_options call) = None
  /\ opt_exp (sign_options call) = None
  /\ member "@context" (sign_payload call) =
     Some (JArr [JStr "https://www.w3.org/ns/credentials/v2"])
  /\ member "type" (sign_payload call) = Some credentialTypes
  /\ member "issuer" (sign_payload call) = Some issuer
  /\ member "credentialSubject" (sign_payload call) = Some credentialSubjectData
  /\ incl (map fst (sign_payload call))
       ["@context"; "type"; "issuer"; "credentialSubject"; "validFrom"; "validUntil"].
Proof.
  unfold issueVC.
  destruct (readKeys keyPath) as [keys|]; [|discriminate].
  destruct (assertionKey keys) as [key|]; [|discriminate].
  intros [= <-]. cbn [sign_options sign_payload sign_key opt_kid opt_iat opt_exp].
  repeat split; try (apply member_app_l; reflexivity).
  destruct validFromOption as [vf|], validUntilOption as [vu|]; cbn [js_truthy];
    repeat match goal with
           | |- context [if ?b then _ else _] => destruct b
           end;
    cbn; intros k Hk; cbn in Hk; cbn; intuition.
Qed.

Section SignProperties.

Variable toLowerCase : string -> string.
Variable homedir : string.
Variable path_join : string -> string -> string.
Variable env : string -> option string.
Variable existsSync : string -> bool.
Variable readFile : string -> option string.
Variable JSON_parse : string -> option JSON.
Variable readKeys : string -> option PrivateKeys.

Local Abbreviation run file options :=
  (signCredential toLowerCase homedir path_join env existsSync readFile JSON_parse
     readKeys file options).
Local Abbreviation config options :=
  (signConfig toLowerCase homedir path_join env options).
Local Abbreviation expanded file := (expandPath homedir path_join file).

(** When the command reaches the signer, the configuration was complete,
    the file was read and parsed, had its three required members, and
    [issueVC] was called on what the file and the configuration give. *)
Lemma signCredential_signed (file : string) (options : SignCredentialOptions)
    (call : SignCall) :
  run file options = Signed call ->
  exists content credential,
    valid (validateCredentialConfig (config options)) = true
    /\ readFile (expanded file) = Some content
    /\ JSON_parse content = Some credential
    /\ js_truthy (property "@context" credential) = true
    /\ js_truthy (property "type" credential) = true
    /\ js_truthy (property "credentialSubject" credential) = true
    /\ issueVC readKeys
         (if js_truthy (property "issuer" credential)
          then default JNull (property "issuer" credential)
          else JStr (default EmptyString (issuerDid (config options))))
         (default EmptyString (privateKeyPath (config options)))
         (match default JNull (property "type" credential) with
          | JArr _ => default JNull (property "type" credential)
          | _ => JArr [default JNull (property "type" credential)]
          end)
         (default JNull (property "credentialSubject" credential))
         (property "validFrom" credential) (property "validUntil" credential) =
       inr call.
Proof.
  unfold signCredential.
  destruct (valid (validateCredentialConfig (config options))) eqn:Hvalid;
    cbn [negb]; [|discriminate].
  destruct (existsSync (expanded file)); cbn [negb]; [|discriminate].
  destruct (readFile (expanded file)) as [content|]; [|discriminate].
  destruct (JSON_parse content) as [credential|] eqn:Hparse; [|discriminate].
  intros H. exists content, credential.
  assert (Hbody :
    match credential with
    | JNull => False
    | _ =>
      (if negb (js_truthy (property "@context" credential))
       then ExitMissingField "@context"
       else if negb (js_truthy (property "type" credential))
       then ExitMissingField "type"
       else if negb (js_truthy (property "credentialSubject" credential))
       then ExitMissingField "credentialSubject"
       else
         match issueVC readKeys
                 (if js_truthy (property "issuer" credential)
                  then default JNull (property "issuer" credential)
                  else JStr (default EmptyString (issuerDid (config options))))
                 (default EmptyString (privateKeyPath (config options)))
                 (match default JNull (property "type" credential) with
                  | JArr _ => default JNull (property "type" credential)
                  | _ => JArr [default JNull (property "type" credential)]
                  end)
                 (default JNull (property "credentialSubject" credential))
                 (property "validFrom" credential) (property "validUntil" credential)
         with
         | inl e => Thrown (message e)
         | inr call => Signed call
         end) = Signed call
    end).
  { destruct credential; [discriminate H | exact H ..]. }
  clear H.
  assert (Hrest :
    (if negb (js_truthy (property "@context" credential))
     then ExitMissingField "@context"
     else if negb (js_truthy (property "type" credential))
     then ExitMissingField "type"
     else if negb (js_truthy (property "credentialSubject" credential))
     then ExitMissingField "credentialSubject"
     else
       match issueVC readKeys
               (if js_truthy (property "issuer" credential)
                then default JNull (property "issuer" credential)
                else JStr (default EmptyString (issuerDid (config options))))
               (default EmptyString (privateKeyPath (config options)))
               (match default JNull (property "type" credential) with
                | JArr _ => default JNull (property "type" credential)
                | _ => JArr [default JNull (property "type" credential)]
                end)
               (default JNull (property "credentialSubject" credential))
               (property "validFrom" credential) (property "validUntil" credential)
       with
       | inl e => Thrown (message e)
       | inr call => Signed call
       end) = Signed call).
  { destruct credential; [destruct Hbody | exact Hbody ..]. }
  clear Hbody. revert Hrest.
  destruct (js_truthy (property "@context" credential)); cbn [negb]; [|discriminate].
  destruct (js_truthy (property "type" credential)); cbn [negb]; [|discriminate].
  destruct (js_truthy (property "credentialSubject" credential)); cbn [negb];
    [|discriminate].
  destruct (issueVC _ _ _ _ _ _ _) as [e|c] eqn:Hissue; [discriminate|].
  intros [= ->]. repeat split; auto.
Qed.

(** The command refuses to sign when [LLM_API_KEY] is not set, although
    signing makes no use of it, and no option of the command line can
    stand in for it: it ends with status 1 before it looks at the file. *)
Theorem signCredential_requires_llm_key (file : string) (options : SignCredentialOptions) :
  string_truthy (env "LLM_API_KEY") = false ->
  exists missingVariables,
    run file options = ExitConfiguration missingVariables
    /\ In "LLM_API_KEY" missingVariables.
Proof.
  intros Hkey. unfold signCredential, validateCredentialConfig.
  cbn [llmApiKey signConfig loadFromEnv valid missing]. rewrite Hkey.
  cbn [app length Nat.eqb negb]. eexists. split; [reflexivity|]. now left.
Qed.

(** What the command signs is rebuilt from the file, not the file
    itself: the context of the file is replaced by the credentials v2
    context, the type is an array, and no member of the file other than
    type, issuer, credentialSubject, validFrom and validUntil reaches the
    signed payload; no [iat] and no [exp] is asked of the signer. *)
Theorem signCredential_payload (file : string) (options : SignCredentialOptions)
    (call : SignCall) :
  run file options = Signed call ->
  member "@context" (sign_payload call) =
    Some (JArr [JStr "https://www.w3.org/ns/credentials/v2"])
  /\ (exists items, member "type" (sign_payload call) = Some (JArr items))
  /\ (forall key v, member key (sign_payload call) = Some v ->
        In key ["@context"; "type"; "issuer"; "credentialSubject";
                "validFrom"; "validUntil"])
  /\ opt_iat (sign_options call) = None
  /\ opt_exp (sign_options call) = None.
Proof.
  intros Hrun.
  destruct (signCredential_signed file options call Hrun)
    as (content & credential & _ & _ & _ & _ & _ & _ & Hissue).
  destruct (issueVC_call _ _ _ _ _ _ _ _ Hissue)
    as (_ & Hiat & Hexp & Hctx & Htype & _ & _ & Hkeys).
  split; [exact Hctx|]. split.
  - rewrite Htype. destruct (default JNull (property "type" credential)); eauto.
  - split; [|split; assumption].
    intros key v Hmem. apply Hkeys. now apply member_keys with v.
Qed.

(** With a truthy issuer in the file, that issuer is the one [issueVC]
    is called with. *)
Lemma signCredential_issuer_call (file : string) (options : SignCredentialOptions)
    (call : SignCall) (content : string) (credential issuer : JSON) :
  readFile (expanded file) = Some content ->
  JSON_parse content = Some credential ->
  property "issuer" credential = Some issuer ->
  js_truthy (Some issuer) = true ->
  run file options = Signed call ->
  member "issuer" (sign_payload call) = Some issuer
  /\ opt_kid (sign_options call) = toString issuer ++ "#" ++ sk_kid (sign_key call).
Proof.
  intros Hread Hparse Hissuer Htruthy Hrun.
  destruct (signCredential_signed file options call Hrun)
    as (content' & credential' & _ & Hread' & Hparse' & _ & _ & _ & Hissue).
  rewrite Hread in Hread'. injection Hread' as <-.
  rewrite Hparse in Hparse'. injection Hparse' as <-.
  rewrite Hissuer, Htruthy in Hissue. cbn [default] in Hissue.
  destruct (issueVC_call _ _ _ _ _ _ _ _ Hissue) as (Hkid & _ & _ & _ & _ & Hmem & _).
  split; assumption.
Qed.

(** The issuer named in the file decides: when the file names its issuer
    by a non-empty string, that string goes into the payload and in front
    of the key identifier, whatever the [--issuer] option and the
    environment say. *)
Theorem signCredential_file_issuer_wins (file : string) (options : SignCredentialOptions)
    (call : SignCall) (content : string) (credential : JSON) (d : string) :
  readFile (expanded file) = Some content ->
  JSON_parse content = Some credential ->
  property "issuer" credential = Some (JStr d) ->
  d <> EmptyString ->
  run file options = Signed call ->
  member "issuer" (sign_payload call) = Some (JStr d)
  /\ opt_kid (sign_options call) = d ++ "#" ++ sk_kid (sign_key call).
Proof.
  intros Hread Hparse Hissuer Hd Hrun.
  apply (signCredential_issuer_call file options call content credential (JStr d)
           Hread Hparse Hissuer); [|exact Hrun].
  cbn. now apply truthy_nonempty.
Qed.

(** A file that names its issuer by an object [{id: DID}] is signed under
    the key identifier [[object Object]#<kid>]: the template string takes
    the string form of the object. The verifier refuses every signed
    object that carries this header and this payload, with
    [IssuerKeyMismatchError]. *)
Theorem signCredential_object_issuer (file : string) (options : SignCredentialOptions)
    (call : SignCall) (content : string) (members obj : JsonObject) (d : string) :
  readFile (expanded file) = Some content ->
  JSON_parse content = Some (JObj members) ->
  member "issuer" members = Some (JObj obj) ->
  member "id" obj = Some (JStr d) ->
  startsWith d "did:" = true ->
  run file options = Signed call ->
  opt_kid (sign_options call) = "[object Object]#" ++ sk_kid (sign_key call)
  /\ forall (Ajv ValidateFunction : Type)
            (parseJWS : string -> string + (JwsHeader * JsonObject))
            (signatureValid : PublicKey -> string -> bool)
            (validateCredentialSchemas :
               JsonObject -> Resolver Ajv ValidateFunction ->
               option Error * Resolver Ajv ValidateFunction)
            (net : Network) (jws : string) (validateSchema : bool)
            (st : Resolver Ajv ValidateFunction) (header : JwsHeader),
       parseJWS jws = inr (header, sign_payload call) ->
       kid header = opt_kid (sign_options call) ->
       verify parseJWS signatureValid validateCredentialSchemas net jws validateSchema st =
       (inl (Err IssuerKeyMismatchError
               ("Credential issuer " ++ d ++ " does not match assertion key "
                ++ kid header)),
        st, []).
Proof.
  intros Hread Hparse Hissuer Hid Hdid Hrun.
  destruct (signCredential_issuer_call file options call content (JObj members)
              (JObj obj) Hread Hparse Hissuer eq_refl Hrun) as [Hmem Hkid].
  cbn [toString] in Hkid. split; [rewrite Hkid; reflexivity|].
  intros Ajv ValidateFunction parseJWS signatureValid validateCredentialSchemas
         net jws validateSchema st header Hjws Hheader.
  destruct (prefix_cons_inv _ _ _ Hdid) as [rest Hd].
  apply verify_mismatch with (sign_payload call).
  - exact Hjws.
  - apply issuerDidOf_present; [rewrite Hd; discriminate|]. right. eauto.
  - rewrite Hheader, Hkid, Hd. reflexivity.
Qed.

End SignProperties.

Lemma signCredential_requires_llm_key_witness :
  exists missingVariables,
    signCredential SignSample.toLowerCase SignSample.homedir SignSample.path_join
      SignSample.envWithoutLlmKey SignSample.existsSync SignSample.readFile
      SignSample.JSON_parse Sample.readKeys "string-issuer.json" SignSample.issuerOption =
    ExitConfiguration missingVariables
    /\ In "LLM_API_KEY" missingVariables.
Proof.
  apply (signCredential_requires_llm_key SignSample.toLowerCase SignSample.homedir
           SignSample.path_join SignSample.envWithoutLlmKey SignSample.existsSync
           SignSample.readFile SignSample.JSON_parse Sample.readKeys
           "string-issuer.json" SignSample.issuerOption).
  reflexivity.
Defined.

Lemma signCredential_payload_witness :
  exists call,
    signCredential SignSample.toLowerCase SignSample.homedir SignSample.path_join
      SignSample.env SignSample.existsSync SignSample.readFile
      SignSample.JSON_parse Sample.readKeys "string-issuer.json" SignSample.noOptions =
    Signed call
    /\ member "@context" (sign_payload call) =
       Some (JArr [JStr "https://www.w3.org/ns/credentials/v2"])
    /\ member "id" (sign_payload call) = None.
Proof.
  eexists. split; [reflexivity|].
  split; [|reflexivity].
  apply (signCredential_payload SignSample.toLowerCase SignSample.homedir
           SignSample.path_join SignSample.env SignSample.existsSync SignSample.readFile
           SignSample.JSON_parse Sample.readKeys "string-issuer.json"
           SignSample.noOptions).
  reflexivity.
Defined.

Lemma signCredential_file_issuer_wins_witness :
  exists call,
    signCredential SignSample.toLowerCase SignSample.homedir SignSample.path_join
      SignSample.env SignSample.existsSync SignSample.readFile
      SignSample.JSON_parse Sample.readKeys "string-issuer.json" SignSample.issuerOption =
    Signed call
    /\ member "issuer" (sign_payload call) = Some (JStr "did:web:file.example")
    /\ opt_kid (sign_options call) = "did:web:file.example#key-1".
Proof.
  eexists. split; [reflexivity|].
  exact (signCredential_file_issuer_wins SignSample.toLowerCase SignSample.homedir
           SignSample.path_join SignSample.env SignSample.existsSync SignSample.readFile
           SignSample.JSON_parse Sample.readKeys "string-issuer.json"
           SignSample.issuerOption _ "string-issuer.json" SignSample.stringIssuerFile
           "did:web:file.example" eq_refl eq_refl eq_refl ltac:(discriminate) eq_refl).
Defined.

Lemma signCredential_object_issuer_witness :
  exists call,
    signCredential SignSample.toLowerCase SignSample.homedir SignSample.path_join
      SignSample.env SignSample.existsSync SignSample.readFile
      SignSample.JSON_parse Sample.readKeys "object-issuer.json" SignSample.noOptions =
    Signed call
    /\ opt_kid (sign_options call) = "[object Object]#" ++ sk_kid (sign_key call).
Proof.
  eexists. split; [reflexivity|].
  exact (proj1 (signCredential_object_issuer SignSample.toLowerCase SignSample.homedir
           SignSample.path_join SignSample.env SignSample.existsSync SignSample.readFile
           SignSample.JSON_parse Sample.readKeys "object-issuer.json"
           SignSample.noOptions _ "object-issuer.json" SignSample.objectIssuerMembers
           SignSample.objectIssuer "did:web:file.example"
           eq_refl eq_refl eq_refl eq_refl eq_refl eq_refl)).
Defined.

(** * Further properties of verification, issuance and validity *)

(** Without schema validation, verifying has one effect on the resolver
    at most: the one of resolving the controller of the key named in the
    header. A signed object that fails before that leaves the resolver
    as it was. *)
Theorem verify_frame {Ajv ValidateFunction : Type}
    (parseJWS : string -> string + (JwsHeader * JsonObject))
    (signatureValid : PublicKey -> string -> bool)
    (validateCredentialSchemas :
       JsonObject -> Resolver Ajv ValidateFunction ->
       option Error * Resolver Ajv ValidateFunction)
    (net : Network) (jws : string) (st : Resolver Ajv ValidateFunction) :
  let st' := snd (fst (verify parseJWS signatureValid validateCredentialSchemas
                         net jws false st)) in
  (st' = st
   /\ snd (verify parseJWS signatureValid validateCredentialSchemas net jws false st) = [])
  \/ exists header credential,
       parseJWS jws = inr (header, credential)
       /\ st' = snd (fst (resolveController net (kid header) st)).
Proof.
  unfold verify.
  destruct (parseJWS jws) as [msg|[header credential]] eqn:Hparse; [left; now split|].
  destruct (issuerDidOf credential) as [e|d]; [left; now split|].
  destruct (negb (startsWith (kid header) d)); [left; now split|].
  right. exists header, credential. split; [reflexivity|].
  destruct (resolveController net (kid header) st) as [[[e|keys] st1] fetched];
    [reflexivity|].
  destruct (resolveKey (assertion keys) (kid header)) as [e|key]; [reflexivity|].
  destruct (verifierVerify parseJWS signatureValid (kid header) key jws); reflexivity.
Qed.

Lemma member_app_r (key : string) (a b : JsonObject) :
  member key a = None -> member key (a ++ b)%list = member key b.
Proof.
  induction a as [|[k w] a IH]; [reflexivity|]. simpl.
  destruct (String.eqb k key); [discriminate | exact IH].
Qed.

(** The validity dates of an issued credential are the strings the caller
    gives, as they are: a date that is absent or empty is left out of the
    credential, every other string goes in without being checked. *)
Theorem issueCredential_validity_dates (readKeys : string -> option PrivateKeys)
    (issuer keyPath : string) (credentialTypes : list string)
    (credentialSubjectData : JsonObject) (options : IssueOptions) (call : SignCall) :
  issueCredential readKeys issuer keyPath credentialTypes
    credentialSubjectData options = inr call ->
  member "validFrom" (sign_payload call) =
    (if string_truthy (validFrom options) then JStr <$> validFrom options else None)
  /\ member "validUntil" (sign_payload call) =
     (if string_truthy (validUntil options) then JStr <$> validUntil options else None)
  /\ member "credentialSubject" (sign_payload call) = Some (JObj credentialSubjectData).
Proof.
  unfold issueCredential.
  destruct (readKeys keyPath) as [keys|]; [|discriminate].
  destruct (assertionKey keys) as [key|]; [|discriminate].
  intros [= <-]. cbn [sign_payload]. unfold optionalMember, string_truthy.
  destruct (validFrom options) as [vf|], (validUntil options) as [vu|];
    try destruct (JsString.truthy vf); try destruct (JsString.truthy vu);
    repeat split; reflexivity.
Qed.

Lemma issueCredential_validity_dates_witness :
  exists call,
    issueCredential Sample.readKeys "did:web:example.com" "keys.json"
      ["VerifiableCredential"] []
      {| validFrom := Some ""; validUntil := Some "next spring" |} = inr call
    /\ member "validFrom" (sign_payload call) = None
    /\ member "validUntil" (sign_payload call) = Some (JStr "next spring").
Proof.
  eexists. split; [reflexivity|].
  pose proof (issueCredential_validity_dates Sample.readKeys "did:web:example.com"
                "keys.json" ["VerifiableCredential"] []
                {| validFrom := Some ""; validUntil := Some "next spring" |} _ eq_refl)
    as (Hfrom & Huntil & _).
  split; [exact Hfrom | exact Huntil].
Defined.

(** The exact condition under which a credential passes the validity
    window: its [exp], when it is not zero and within the range of dates,
    is not before the clock, to the millisecond, and its [nbf], under the
    same conditions, is not after the clock. A claim that is absent, zero
    or beyond the range of dates never rejects. *)
Theorem checkValidityWindow_accepts (e n : option Z) (nowExp nowNbf : Z) :
  checkValidityWindow {| exp := e; nbf := n |} nowExp nowNbf = Validated <->
  (forall x, e = Some x -> x <> 0 -> Z.abs (x * 1000) <= 8640000000000000 ->
             nowExp <= x * 1000)
  /\ (forall y, n = Some y -> y <> 0 -> Z.abs (y * 1000) <= 8640000000000000 ->
                y * 1000 <= nowNbf).
Proof.
  unfold checkValidityWindow, claim_truthy, newDate, date_lt. cbn [exp nbf].
  destruct e as [x|], n as [y|];
    repeat match goal with
           | |- context [?a =? ?b] => destruct (Z.eqb_spec a b)
           | |- context [?a <=? ?b] => destruct (Z.leb_spec a b)
           | |- context [?a <? ?b] => destruct (Z.ltb_spec a b)
           end; cbn [negb];
    (split; [intros Hval; try discriminate Hval; split; intros z [= <-]; intros; lia
            | intros [Hexp Hnbf]; try reflexivity;
              try (specialize (Hexp _ eq_refl); lia);
              try (specialize (Hnbf _ eq_refl); lia)]).
Qed.

Lemma resolveController_refetch_witness :
  snd (resolveController Sample.offline "did:web:example.com#key-1"
         (snd (fst (resolveController Sample.online "did:web:example.com#key-1"
                      Sample.empty)))) =
  ["https://example.com/.well-known/did.json"].
Proof.
  apply (resolveController_refetch Sample.empty Sample.online Sample.offline
           "did:web:example.com#key-1" Sample.doc); reflexivity.
Defined.
